(** * KUser / KUserGroup on POSIX: a shallow embedding of kuser_unix.cpp

    The development follows src/lib/util/kuser_unix.cpp function by
    function.  Everything the C++ code obtains from outside the process
    (the C library's account and group lookups, the environment, the
    process ids, Qt's local 8-bit codec) is gathered in one record, [OS],
    and every embedded function takes it as an explicit argument. *)

From stdpp Require Import base decidable countable option list gmap strings.
From Stdlib Require Import ZArith Lia Ascii.

Local Open Scope Z_scope.

(** ** Machine integers *)

(** [uid_t], [gid_t] and Qt's [uint] are unsigned 32-bit integers, [int]
    is a signed one.  They are carried by [Z]; conversions are written
    out. *)
Definition uid_t := Z.
Definition gid_t := Z.
Definition uint := Z.

Definition UINT_MAX : Z := 4294967295.
Definition INT_MAX : Z := 2147483647.

(** Conversion of an integer to a 32-bit unsigned type, [uid_t(z)]. *)
Definition to_u32 (z : Z) : Z := z mod 2 ^ 32.

(** The cast [(int)u] of a 32-bit unsigned value. *)
Definition to_int (u : Z) : Z :=
  let w := to_u32 u in if w <? 2 ^ 31 then w else w - 2 ^ 32.

(** [uid_t(-1)] and [gid_t(-1)]. *)
Definition uid_invalid : uid_t := to_u32 (-1).
Definition gid_invalid : gid_t := to_u32 (-1).

(** Modelled from the spec: the header kuser.h, which gives [maxCount] its
    default argument, is not part of the sources at hand; the spec calls the
    default "unbounded", the largest [uint]. *)
Definition maxCount_default : uint := UINT_MAX.

(** ** Strings and Qt containers *)

Abbreviation QByteArray := string (only parsing).
Abbreviation QString := string (only parsing).
Abbreviation QStringList := (list string) (only parsing).

Definition isEmpty (s : QString) : bool :=
  match s with EmptyString => true | String _ _ => false end.

(** [QString::split(sep)] with its default [KeepEmptyParts]: the text
    between separators, empty pieces included; the empty string splits
    into one empty piece. *)
Fixpoint split (sep : Ascii.ascii) (s : QString) : QStringList :=
  match s with
  | EmptyString => [EmptyString]
  | String c rest =>
      if Ascii.eqb c sep then EmptyString :: split sep rest
      else match split sep rest with
           | [] => [String c EmptyString]
           | piece :: pieces => String c piece :: pieces
           end
  end.

(** [QStringList::join(sep)], used to characterise [split]. *)
Fixpoint join (sep : Ascii.ascii) (l : QStringList) : QString :=
  match l with
  | [] => EmptyString
  | [piece] => piece
  | piece :: rest => piece +:+ String sep (join sep rest)
  end.

(** [QList::operator[]] on a string list; the index is in range wherever
    the code uses it, the default stands for the out-of-range fault. *)
Definition at_ (l : QStringList) (i : nat) : QString := default EmptyString (l !! i).

(** [QList::mid(pos, alength)]: a negative length, or one that reaches
    past the end, means "up to the end". *)
Definition mid {A} (l : list A) (pos alength : Z) : list A :=
  if (alength <? 0) || (Z.of_nat (length l) <? pos + alength)
  then drop (Z.to_nat pos) l
  else take (Z.to_nat alength) (drop (Z.to_nat pos) l).

(** ** Records of the C library *)

Record passwd := {
  pw_name : QByteArray;
  pw_uid : uid_t;
  pw_gid : gid_t;
  pw_gecos : QByteArray;
  pw_dir : QByteArray;
  pw_shell : QByteArray
}.

Record group := {
  gr_name : QByteArray;
  gr_gid : gid_t;
  gr_mem : list QByteArray
}.

(** ** The process environment *)

Record OS := {
  getuid : uid_t;
  geteuid : uid_t;
  getgid : gid_t;
  getegid : gid_t;
  getenv : QByteArray -> option QByteArray;
  getpwnam : QByteArray -> option passwd;
  getpwuid : uid_t -> option passwd;
  getgrnam : QByteArray -> option group;
  getgrgid : gid_t -> option group;
  (** what successive [getpwent] / [getgrent] calls yield after a rewind *)
  pw_entries : list passwd;
  gr_entries : list group;
  (** [strerror(errno)] after a failed [getpwnam] / [getgrnam] of a name *)
  pw_strerror : QByteArray -> QByteArray;
  gr_strerror : QByteArray -> QByteArray;
  (** Qt's codecs *)
  fromLocal8Bit : QByteArray -> QString;
  toLocal8Bit : QString -> QByteArray;
  decodeName : QByteArray -> QString
}.

(** [qgetenv]: an unset variable gives the empty byte array. *)
Definition qgetenv (os : OS) (name : QByteArray) : QByteArray :=
  default EmptyString (getenv os name).

(** ** Identifier value types *)

(** Modelled from the spec: [KUserId] and [KGroupId] are declared in
    kuser.h, which is not part of the sources at hand.  Per the spec an
    identifier wraps the native id, is invalid by default, is valid iff it
    differs from the sentinel, and compares by native id. *)
Module KUserId.
Record t := mk { nativeId : uid_t }.
Definition default_ : t := mk uid_invalid.
Definition of_native (u : Z) : t := mk (to_u32 u).
Definition isValid (i : t) : bool := negb (nativeId i =? uid_invalid).
Definition eqb (a b : t) : bool := nativeId a =? nativeId b.
End KUserId.

Module KGroupId.
Record t := mk { nativeId : gid_t }.
Definition default_ : t := mk gid_invalid.
Definition of_native (g : Z) : t := mk (to_u32 g).
Definition isValid (i : t) : bool := negb (nativeId i =? gid_invalid).
Definition eqb (a b : t) : bool := nativeId a =? nativeId b.
End KGroupId.

(** ** KUser *)

Inductive UserProperty := FullName | RoomNumber | WorkPhone | HomePhone.

Global Instance UserProperty_eq_dec : EqDecision UserProperty.
Proof. solve_decision. Defined.

Definition UserProperty_code (p : UserProperty) : nat :=
  match p with FullName => 0 | RoomNumber => 1 | WorkPhone => 2 | HomePhone => 3 end%nat.

Definition UserProperty_of_code (n : nat) : option UserProperty :=
  match n with
  | 0 => Some FullName | 1 => Some RoomNumber | 2 => Some WorkPhone | 3 => Some HomePhone
  | _ => None
  end%nat.

Global Instance UserProperty_countable : Countable UserProperty.
Proof.
  apply (inj_countable UserProperty_code UserProperty_of_code).
  intros []; reflexivity.
Defined.

Inductive QVariant :=
| QVariant_invalid
| QVariant_string (s : QString).

Inductive UIDMode := UseEffectiveUID | UseRealUserID.

Definition UIDMode_eqb (a b : UIDMode) : bool :=
  match a, b with
  | UseEffectiveUID, UseEffectiveUID | UseRealUserID, UseRealUserID => true
  | _, _ => false
  end.

(** The loop [while (gecosList.size() < 4) gecosList << QString()].  It
    appends at most four times; [fill_up_loop_done] shows the loop
    condition is false when the four rounds are over. *)
Fixpoint fill_up_loop (rounds : nat) (gecosList : QStringList) : QStringList :=
  match rounds with
  | O => gecosList
  | S rounds' =>
      if Z.of_nat (length gecosList) <? 4
      then fill_up_loop rounds' (gecosList ++ [EmptyString])
      else gecosList
  end.

Definition fill_up (gecosList : QStringList) : QStringList := fill_up_loop 4 gecosList.

Module KUser.

Module Private.
Record t := mk {
  uid : uid_t;
  gid : gid_t;
  loginName : QString;
  homeDir : QString;
  shell : QString;
  properties : gmap UserProperty QVariant
}.

(** The member initialisers shared by the three constructors. *)
Definition init : t :=
  mk uid_invalid gid_invalid EmptyString EmptyString EmptyString ∅.

Definition fillPasswd (os : OS) (self : t) (p : option passwd) : t :=
  match p with
  | None => self
  | Some p =>
      let gecos := fromLocal8Bit os (pw_gecos p) in
      let gecosList := fill_up (split ","%char gecos) in
      let uid' := pw_uid p in
      let properties' :=
        <[HomePhone := QVariant_string (at_ gecosList 3)]>
        (<[WorkPhone := QVariant_string (at_ gecosList 2)]>
        (<[RoomNumber := QVariant_string (at_ gecosList 1)]>
        (<[FullName := QVariant_string (at_ gecosList 0)]> (properties self)))) in
      let homeDir1 :=
        if (uid' =? getuid os) && (uid' =? geteuid os)
        then decodeName os (qgetenv os "HOME")
        else homeDir self in
      let homeDir2 :=
        if isEmpty homeDir1 then decodeName os (pw_dir p) else homeDir1 in
      mk uid' (pw_gid p) (fromLocal8Bit os (pw_name p)) homeDir2
         (fromLocal8Bit os (pw_shell p)) properties'
  end.

(** [Private()] *)
Definition new : t := init.

(** [Private(const char *name)]; [None] is the null pointer. *)
Definition of_name (os : OS) (name : option QByteArray) : t :=
  fillPasswd os init
    (match name with Some n => getpwnam os n | None => None end).

(** [Private(const passwd *p)] *)
Definition of_passwd (os : OS) (p : option passwd) : t :=
  fillPasswd os init p.
End Private.

(** A [KUser] is a shared pointer [d] to its private record. *)
Record t := mk { d : Private.t }.

(** [KUser(UIDMode mode)] *)
Definition of_mode (os : OS) (mode : UIDMode) : t :=
  let _uid := getuid os in
  if UIDMode_eqb mode UseEffectiveUID && negb (geteuid os =? _uid) then
    mk (Private.of_passwd os (getpwuid os (geteuid os)))
  else
    let d1 := Private.of_name os (Some (qgetenv os "LOGNAME")) in
    if negb (Private.uid d1 =? _uid) then
      let d2 := Private.of_name os (Some (qgetenv os "USER")) in
      if negb (Private.uid d2 =? _uid) then
        mk (Private.of_passwd os (getpwuid os _uid))
      else mk d2
    else mk d1.

(** [KUser(K_UID _uid)] *)
Definition of_uid (os : OS) (_uid : uid_t) : t :=
  mk (Private.of_passwd os (getpwuid os _uid)).

(** [KUser(KUserId _uid)] *)
Definition of_KUserId (os : OS) (_uid : KUserId.t) : t :=
  mk (Private.of_passwd os (getpwuid os (KUserId.nativeId _uid))).

(** [KUser(const QString &name)] *)
Definition of_QString (os : OS) (name : QString) : t :=
  mk (Private.of_name os (Some (toLocal8Bit os name))).

(** [KUser(const char *name)] *)
Definition of_name (os : OS) (name : option QByteArray) : t :=
  mk (Private.of_name os name).

(** [KUser(const passwd *p)] *)
Definition of_passwd (os : OS) (p : option passwd) : t :=
  mk (Private.of_passwd os p).

Definition isValid (u : t) : bool :=
  negb (Private.uid (d u) =? uid_invalid).

(** [operator ==] *)
Definition eqb (u user : t) : bool :=
  isValid u && (Private.uid (d u) =? Private.uid (d user)).

(** [operator !=] *)
Definition neqb (u user : t) : bool := negb (eqb u user).

Definition userId (u : t) : KUserId.t := KUserId.mk (Private.uid (d u)).
Definition groupId (u : t) : KGroupId.t := KGroupId.mk (Private.gid (d u)).
Definition isSuperUser (u : t) : bool := Private.uid (d u) =? 0.
Definition loginName (u : t) : QString := Private.loginName (d u).
Definition homeDir (u : t) : QString := Private.homeDir (d u).
Definition shell (u : t) : QString := Private.shell (d u).

(** [property(which)]: [QMap::value] gives a default-constructed variant
    for a missing key. *)
Definition property (u : t) (which : UserProperty) : QVariant :=
  default QVariant_invalid (Private.properties (d u) !! which).

End KUser.

(** ** The sequential cursors of the account and group databases *)

Inductive db_call := Setpwent | Getpwent | Endpwent | Setgrent | Getgrent | Endgrent.

(** A cursor is [None] when closed and [Some i] when open with entry [i]
    next.  [db_calls] records the cursor calls made so far, oldest first. *)
Record DbState := {
  pw_cursor : option nat;
  gr_cursor : option nat;
  db_calls : list db_call
}.

Definition setpwent (st : DbState) : DbState :=
  {| pw_cursor := Some 0%nat; gr_cursor := gr_cursor st;
     db_calls := db_calls st ++ [Setpwent] |}.

(** [getpwent] on a closed cursor opens it at the first entry. *)
Definition getpwent (os : OS) (st : DbState) : option passwd * DbState :=
  let i := default 0%nat (pw_cursor st) in
  match pw_entries os !! i with
  | Some p => (Some p, {| pw_cursor := Some (S i); gr_cursor := gr_cursor st;
                          db_calls := db_calls st ++ [Getpwent] |})
  | None => (None, {| pw_cursor := Some i; gr_cursor := gr_cursor st;
                      db_calls := db_calls st ++ [Getpwent] |})
  end.

Definition endpwent (st : DbState) : DbState :=
  {| pw_cursor := None; gr_cursor := gr_cursor st;
     db_calls := db_calls st ++ [Endpwent] |}.

Definition setgrent (st : DbState) : DbState :=
  {| pw_cursor := pw_cursor st; gr_cursor := Some 0%nat;
     db_calls := db_calls st ++ [Setgrent] |}.

Definition getgrent (os : OS) (st : DbState) : option group * DbState :=
  let i := default 0%nat (gr_cursor st) in
  match gr_entries os !! i with
  | Some g => (Some g, {| pw_cursor := pw_cursor st; gr_cursor := Some (S i);
                          db_calls := db_calls st ++ [Getgrent] |})
  | None => (None, {| pw_cursor := pw_cursor st; gr_cursor := Some i;
                      db_calls := db_calls st ++ [Getgrent] |})
  end.

Definition endgrent (st : DbState) : DbState :=
  {| pw_cursor := pw_cursor st; gr_cursor := None;
     db_calls := db_calls st ++ [Endgrent] |}.

(** ** KUser::allUsers *)

(** The loop [for (uint i = 0; i < maxCount && (p = getpwent()); ++i)].
    [fuel] bounds the number of rounds; [None] means it ran out. *)
Fixpoint allUsers_loop (fuel : nat) (os : OS) (maxCount i : uint)
    (st : DbState) (result : list KUser.t) : option (list KUser.t * DbState) :=
  match fuel with
  | O => None
  | S fuel' =>
      if i <? maxCount then
        match getpwent os st with
        | (Some p, st') =>
            allUsers_loop fuel' os maxCount (to_u32 (i + 1)) st'
              (result ++ [KUser.of_passwd os (Some p)])
        | (None, st') => Some (result, st')
        end
      else Some (result, st)
  end.

Definition allUsers (fuel : nat) (os : OS) (maxCount : uint) (st : DbState)
    : option (list KUser.t * DbState) :=
  match allUsers_loop fuel os maxCount 0 (setpwent st) [] with
  | Some (result, st') => Some (result, endpwent st')
  | None => None
  end.

(** ** KUserGroup *)

Module KUserGroup.

Module Private.
Record t := mk {
  gid : gid_t;
  name : QString;
  users : list KUser.t
}.

Definition init : t := mk gid_invalid EmptyString [].

(** The [for] loop walks the null-terminated [gr_mem] array and appends
    the [KUser] built from each member name. *)
Definition fillGroup (os : OS) (self : t) (p : option group) : t :=
  match p with
  | None => self
  | Some p =>
      mk (gr_gid p) (fromLocal8Bit os (gr_name p))
         (foldl (fun users' user => users' ++ [KUser.of_name os (Some user)])
                (users self) (gr_mem p))
  end.

(** [Private()] *)
Definition new : t := init.

(** [Private(const char *_name)] *)
Definition of_name (os : OS) (_name : option QByteArray) : t :=
  fillGroup os init
    (match _name with Some n => getgrnam os n | None => None end).

(** [Private(const ::group *p)] *)
Definition of_group (os : OS) (p : option group) : t :=
  fillGroup os init p.
End Private.

Record t := mk { d : Private.t }.

(** [KUserGroup(KUser::UIDMode mode)] *)
Definition of_mode (os : OS) (mode : UIDMode) : t :=
  mk (Private.of_group os
        (getgrgid os (KGroupId.nativeId (KUser.groupId (KUser.of_mode os mode))))).

(** [KUserGroup(K_GID _gid)] *)
Definition of_gid (os : OS) (_gid : gid_t) : t :=
  mk (Private.of_group os (getgrgid os _gid)).

(** [KUserGroup(KGroupId _gid)] *)
Definition of_KGroupId (os : OS) (_gid : KGroupId.t) : t :=
  mk (Private.of_group os (getgrgid os (KGroupId.nativeId _gid))).

(** [KUserGroup(const QString &_name)] *)
Definition of_QString (os : OS) (_name : QString) : t :=
  mk (Private.of_name os (Some (toLocal8Bit os _name))).

(** [KUserGroup(const char *_name)] *)
Definition of_name (os : OS) (_name : option QByteArray) : t :=
  mk (Private.of_name os _name).

(** [KUserGroup(const ::group *g)] *)
Definition of_group (os : OS) (g : option group) : t :=
  mk (Private.of_group os g).

Definition isValid (g : t) : bool :=
  negb (Private.gid (d g) =? gid_invalid).

(** [operator ==] *)
Definition eqb (g group' : t) : bool :=
  isValid g && (Private.gid (d g) =? Private.gid (d group')).

(** [operator !=] *)
Definition neqb (g user : t) : bool := negb (eqb g user).

Definition groupId (g : t) : KGroupId.t := KGroupId.mk (Private.gid (d g)).
Definition name (g : t) : QString := Private.name (d g).

(** [QList::size()], an [int]. *)
Definition size {A} (l : list A) : Z := Z.of_nat (length l).

Definition users (g : t) (maxCount : uint) : list KUser.t :=
  if to_int maxCount <? 0 then Private.users (d g)
  else mid (Private.users (d g)) 0 (to_int maxCount).

(** The loop of [userNames]; [d->users[i]] outside the list is a fault,
    here [None], as is running out of [fuel]. *)
Fixpoint userNames_loop (fuel : nat) (g : t) (maxCount i : uint)
    (result : QStringList) : option QStringList :=
  match fuel with
  | O => None
  | S fuel' =>
      if (i <? to_u32 (size (Private.users (d g)))) && (i <? maxCount) then
        match Private.users (d g) !! Z.to_nat i with
        | Some u =>
            userNames_loop fuel' g maxCount (to_u32 (i + 1))
              (result ++ [KUser.loginName u])
        | None => None
        end
      else Some result
  end.

Definition userNames (fuel : nat) (g : t) (maxCount : uint) : option QStringList :=
  userNames_loop fuel g maxCount 0 [].

(** The loop [for (uint i = 0; i < maxCount && (g = getgrent()); ++i)]. *)
Fixpoint allGroups_loop (fuel : nat) (os : OS) (maxCount i : uint)
    (st : DbState) (result : list t) : option (list t * DbState) :=
  match fuel with
  | O => None
  | S fuel' =>
      if i <? maxCount then
        match getgrent os st with
        | (Some g, st') =>
            allGroups_loop fuel' os maxCount (to_u32 (i + 1)) st'
              (result ++ [of_group os (Some g)])
        | (None, st') => Some (result, st')
        end
      else Some (result, st)
  end.

Definition allGroups (fuel : nat) (os : OS) (maxCount : uint) (st : DbState)
    : option (list t * DbState) :=
  match allGroups_loop fuel os maxCount 0 (setgrent st) [] with
  | Some (result, st') => Some (result, endgrent st')
  | None => None
  end.

End KUserGroup.

(** ** KUserId::fromName and KGroupId::fromName *)

(** The functions return the identifier; the second component is what
    [qWarning] wrote to the diagnostic stream during the call. *)
Definition KUserId_fromName (os : OS) (name : QString) : KUserId.t * list QByteArray :=
  let name8Bit := toLocal8Bit os name in
  match getpwnam os name8Bit with
  | None =>
      (KUserId.default_,
       ["Failed to lookup user " +:+ name8Bit +:+ ": " +:+ pw_strerror os name8Bit])
  | Some p => (KUserId.mk (pw_uid p), [])
  end.

Definition KGroupId_fromName (os : OS) (name : QString) : KGroupId.t * list QByteArray :=
  let name8Bit := toLocal8Bit os name in
  match getgrnam os name8Bit with
  | None =>
      (KGroupId.default_,
       ["Failed to lookup group " +:+ name8Bit +:+ ": " +:+ gr_strerror os name8Bit])
  | Some g => (KGroupId.mk (gr_gid g), [])
  end.

Definition KUserId_currentUserId (os : OS) : KUserId.t := KUserId.mk (getuid os).
Definition KUserId_currentEffectiveUserId (os : OS) : KUserId.t := KUserId.mk (geteuid os).
Definition KGroupId_currentGroupId (os : OS) : KGroupId.t := KGroupId.mk (getgid os).
Definition KGroupId_currentEffectiveGroupId (os : OS) : KGroupId.t := KGroupId.mk (getegid os).

(** ** Predicates used in the statements *)

(** A user with nothing in it: invalid, and every textual accessor empty. *)
Definition is_blank (u : KUser.t) : bool :=
  negb (KUser.isValid u) && isEmpty (KUser.loginName u)
  && isEmpty (KUser.homeDir u) && isEmpty (KUser.shell u).

(** Whether a string holds a given character. *)
Fixpoint contains (c : Ascii.ascii) (s : QString) : bool :=
  match s with
  | EmptyString => false
  | String c' rest => Ascii.eqb c' c || contains c rest
  end.

(** How many times an enumeration calls [getpwent] / [getgrent] when it
    may take [limit] entries and [remaining] are left: one call per entry
    taken, and one more, answered with null, when the entries run out
    first. *)
Definition fetches (limit remaining : nat) : nat :=
  if (limit <=? remaining)%nat then limit else S remaining.

(** ** A small system to run the definitions on *)

Module Demo.

Definition root : passwd :=
  {| pw_name := "root"; pw_uid := 0; pw_gid := 0; pw_gecos := "root";
     pw_dir := "/root"; pw_shell := "/bin/sh" |}.

Definition alice : passwd :=
  {| pw_name := "alice"; pw_uid := 1000; pw_gid := 100;
     pw_gecos := "Alice Liddell,12,555-0100,555-0199,looking-glass";
     pw_dir := "/home/alice"; pw_shell := "/bin/bash" |}.

Definition bob : passwd :=
  {| pw_name := "bob"; pw_uid := 1001; pw_gid := 100; pw_gecos := "Bob,,7";
     pw_dir := "/home/bob"; pw_shell := "/bin/zsh" |}.

Definition wheel : group :=
  {| gr_name := "wheel"; gr_gid := 10; gr_mem := ["root"; "alice"] |}.

Definition staff : group :=
  {| gr_name := "users"; gr_gid := 100; gr_mem := ["alice"; "bob"; "ghost"] |}.

Definition nogroup : group :=
  {| gr_name := "nogroup"; gr_gid := 65534; gr_mem := [] |}.

Definition passwd_db : list passwd := [root; alice; bob].
Definition group_db : list group := [wheel; staff; nogroup].

Definition environ (name : QByteArray) : option QByteArray :=
  if String.eqb name "HOME" then Some "/tmp/alice"
  else if String.eqb name "LOGNAME" then Some "bob"
  else if String.eqb name "USER" then Some "alice"
  else None.

(** A process of alice's whose [LOGNAME] is stale. *)
Definition os : OS :=
  {| getuid := 1000; geteuid := 1000; getgid := 100; getegid := 100;
     getenv := environ;
     getpwnam := fun n => List.find (fun p => String.eqb (pw_name p) n) passwd_db;
     getpwuid := fun u => List.find (fun p => pw_uid p =? u) passwd_db;
     getgrnam := fun n => List.find (fun g => String.eqb (gr_name g) n) group_db;
     getgrgid := fun i => List.find (fun g => gr_gid g =? i) group_db;
     pw_entries := passwd_db;
     gr_entries := group_db;
     pw_strerror := fun _ => "No such file or directory";
     gr_strerror := fun _ => "No such file or directory";
     fromLocal8Bit := fun s => s;
     toLocal8Bit := fun s => s;
     decodeName := fun s => s |}.

Definition closed : DbState :=
  {| pw_cursor := None; gr_cursor := None; db_calls := [] |}.

End Demo.

(** ** The other functions of kuser_unix.cpp *)

(** The loop of [KUser::allUserNames]. *)
Fixpoint allUserNames_loop (fuel : nat) (os : OS) (maxCount i : uint)
    (st : DbState) (result : QStringList) : option (QStringList * DbState) :=
  match fuel with
  | O => None
  | S fuel' =>
      if i <? maxCount then
        match getpwent os st with
        | (Some p, st') =>
            allUserNames_loop fuel' os maxCount (to_u32 (i + 1)) st'
              (result ++ [fromLocal8Bit os (pw_name p)])
        | (None, st') => Some (result, st')
        end
      else Some (result, st)
  end.

Definition allUserNames (fuel : nat) (os : OS) (maxCount : uint) (st : DbState)
    : option (QStringList * DbState) :=
  match allUserNames_loop fuel os maxCount 0 (setpwent st) [] with
  | Some (result, st') => Some (result, endpwent st')
  | None => None
  end.

(** The loop of [KUserGroup::allGroupNames]. *)
Fixpoint allGroupNames_loop (fuel : nat) (os : OS) (maxCount i : uint)
    (st : DbState) (result : QStringList) : option (QStringList * DbState) :=
  match fuel with
  | O => None
  | S fuel' =>
      if i <? maxCount then
        match getgrent os st with
        | (Some g, st') =>
            allGroupNames_loop fuel' os maxCount (to_u32 (i + 1)) st'
              (result ++ [fromLocal8Bit os (gr_name g)])
        | (None, st') => Some (result, st')
        end
      else Some (result, st)
  end.

Definition allGroupNames (fuel : nat) (os : OS) (maxCount : uint) (st : DbState)
    : option (QStringList * DbState) :=
  match allGroupNames_loop fuel os maxCount 0 (setgrent st) [] with
  | Some (result, st') => Some (result, endgrent st')
  | None => None
  end.

(** [QList<KUser>::contains(t)]: the entries are compared with [t] by
    [entry == t], the entry on the left. *)
Definition users_contains (users : list KUser.t) (t : KUser.t) : bool :=
  existsb (fun entry => KUser.eqb entry t) users.

(** The [for] loop of [KUser::groups] over the list [allGroups()] gave;
    [break] leaves the loop with the result so far. *)
Fixpoint groups_loop (self : KUser.t) (maxCount : uint)
    (allGroups : list KUserGroup.t) (result : list KUserGroup.t) : list KUserGroup.t :=
  match allGroups with
  | [] => result
  | it :: rest =>
      let users := KUserGroup.users it maxCount_default in
      if users_contains users self then
        if to_u32 (KUserGroup.size result) >=? maxCount then result
        else groups_loop self maxCount rest (result ++ [it])
      else groups_loop self maxCount rest result
  end.

(** [KUser::groups(maxCount)]; [fuel] is for the scan of [allGroups()]. *)
Definition groups (fuel : nat) (os : OS) (self : KUser.t) (maxCount : uint)
    (st : DbState) : option (list KUserGroup.t * DbState) :=
  match KUserGroup.allGroups fuel os maxCount_default st with
  | Some (allGroups, st') => Some (groups_loop self maxCount allGroups [], st')
  | None => None
  end.

(** The [for] loop of [KUser::groupNames]. *)
Fixpoint groupNames_loop (self : KUser.t) (maxCount : uint)
    (allGroups : list KUserGroup.t) (result : QStringList) : QStringList :=
  match allGroups with
  | [] => result
  | it :: rest =>
      let users := KUserGroup.users it maxCount_default in
      if users_contains users self then
        if to_u32 (KUserGroup.size result) >=? maxCount then result
        else groupNames_loop self maxCount rest (result ++ [KUserGroup.name it])
      else groupNames_loop self maxCount rest result
  end.

(** [KUser::groupNames(maxCount)] *)
Definition groupNames (fuel : nat) (os : OS) (self : KUser.t) (maxCount : uint)
    (st : DbState) : option (QStringList * DbState) :=
  match KUserGroup.allGroups fuel os maxCount_default st with
  | Some (allGroups, st') => Some (groupNames_loop self maxCount allGroups [], st')
  | None => None
  end.

(** [KUser::faceIconPath()]; [file_exists] is [QFile::exists], and
    [QDir::separator()] is the slash. *)
Definition faceIconPath (file_exists : QString -> bool) (u : KUser.t) : QString :=
  let pathToFaceIcon := KUser.homeDir u +:+ String "/"%char ".face.icon" in
  if file_exists pathToFaceIcon then pathToFaceIcon else EmptyString.

(** The membership test of [groups], spelled out on a group record: some
    listed name has an account whose uid is valid and is the given one. *)
Definition listed_uid (os : OS) (g : group) (uid : uid_t) : bool :=
  existsb (fun member =>
             match getpwnam os member with
             | Some p => negb (pw_uid p =? uid_invalid) && (pw_uid p =? uid)
             | None => false
             end) (gr_mem g).

(** The login name [userNames] reports for a listed member name. *)
Definition member_login (os : OS) (member : QByteArray) : QString :=
  match getpwnam os member with
  | Some p => fromLocal8Bit os (pw_name p)
  | None => EmptyString
  end.

(** A group with nothing in it. *)
Definition is_blank_group (g : KUserGroup.t) : bool :=
  negb (KUserGroup.isValid g) && isEmpty (KUserGroup.name g)
  && match KUserGroup.Private.users (KUserGroup.d g) with [] => true | _ => false end.

(** ** A set-uid process to run the definitions on *)

Module Setuid.

(** Alice runs a program owned by root: real uid 1000, effective uid 0. *)
Definition os : OS :=
  {| getuid := 1000; geteuid := 0; getgid := 100; getegid := 0;
     getenv := getenv Demo.os;
     getpwnam := getpwnam Demo.os;
     getpwuid := getpwuid Demo.os;
     getgrnam := getgrnam Demo.os;
     getgrgid := getgrgid Demo.os;
     pw_entries := pw_entries Demo.os;
     gr_entries := gr_entries Demo.os;
     pw_strerror := pw_strerror Demo.os;
     gr_strerror := gr_strerror Demo.os;
     fromLocal8Bit := fromLocal8Bit Demo.os;
     toLocal8Bit := toLocal8Bit Demo.os;
     decodeName := decodeName Demo.os |}.

End Setuid.

Example demo_alice_properties :
  let u := KUser.of_QString Demo.os "alice" in
  (KUser.isValid u, KUser.loginName u, KUser.homeDir u, KUser.shell u,
   KUser.property u FullName, KUser.property u HomePhone)
  = (true, "alice", "/tmp/alice", "/bin/bash",
     QVariant_string "Alice Liddell", QVariant_string "555-0199").
Proof. vm_compute. reflexivity. Qed.

Example demo_bob_properties :
  let u := KUser.of_uid Demo.os 1001 in
  (KUser.homeDir u, KUser.property u FullName, KUser.property u RoomNumber,
   KUser.property u WorkPhone, KUser.property u HomePhone)
  = ("/home/bob", QVariant_string "Bob", QVariant_string "",
     QVariant_string "7", QVariant_string "").
Proof. vm_compute. reflexivity. Qed.

Example demo_real_user :
  KUser.loginName (KUser.of_mode Demo.os UseRealUserID) = "alice".
Proof. vm_compute. reflexivity. Qed.

Example demo_split :
  split ","%char "a,,b," = ["a"; ""; "b"; ""] /\ split ","%char "" = [""].
Proof. split; reflexivity. Qed.

(** * Properties *)

(** ** Integer conversions *)

Lemma uid_invalid_value : uid_invalid = UINT_MAX.
Proof. reflexivity. Qed.

Lemma to_u32_small (z : Z) : 0 <= z <= UINT_MAX -> to_u32 z = z.
Proof. unfold to_u32, UINT_MAX. intros H. apply Z.mod_small. lia. Qed.

Lemma to_int_nonneg (u : Z) : 0 <= u <= INT_MAX -> to_int u = u.
Proof.
  unfold to_int, INT_MAX. intros H. rewrite to_u32_small by (unfold UINT_MAX; lia).
  destruct (Z.ltb_spec u (2 ^ 31)); lia.
Qed.

Lemma to_int_negative (u : Z) : INT_MAX < u <= UINT_MAX -> to_int u < 0.
Proof.
  unfold to_int, INT_MAX, UINT_MAX. intros H.
  rewrite to_u32_small by (unfold UINT_MAX; lia).
  destruct (Z.ltb_spec u (2 ^ 31)); lia.
Qed.

(** ** C1: equality of users *)

(** C1. [operator==] is true exactly when both users are valid and their
    uids are equal; it reads nothing but the two uids, so replacing every
    other field of either user leaves the result unchanged; and
    [operator!=] is its negation. *)
Theorem KUser_equality (u1 u2 : KUser.t)
    (gid1 gid2 : gid_t) (login1 home1 shell1 login2 home2 shell2 : QString)
    (props1 props2 : gmap UserProperty QVariant) :
  KUser.eqb u1 u2
    = KUser.isValid u1 && KUser.isValid u2
      && (KUser.Private.uid (KUser.d u1) =? KUser.Private.uid (KUser.d u2))
  /\ KUser.eqb
       (KUser.mk (KUser.Private.mk (KUser.Private.uid (KUser.d u1))
                    gid1 login1 home1 shell1 props1))
       (KUser.mk (KUser.Private.mk (KUser.Private.uid (KUser.d u2))
                    gid2 login2 home2 shell2 props2))
     = KUser.eqb u1 u2
  /\ KUser.neqb u1 u2 = negb (KUser.eqb u1 u2).
Proof.
  destruct u1 as [[uid1 g1 l1 h1 s1 p1]], u2 as [[uid2 g2 l2 h2 s2 p2]].
  unfold KUser.eqb, KUser.neqb, KUser.isValid. simpl.
  repeat split.
  destruct (Z.eqb_spec uid1 uid2) as [->|Hne].
  - destruct (uid2 =? uid_invalid); reflexivity.
  - rewrite !andb_false_r. reflexivity.
Qed.

(** ** C2: validity is a property of the stored identifier *)

Lemma fillGroup_users (os : OS) (self : KUserGroup.Private.t) (p : group) :
  KUserGroup.Private.users (KUserGroup.Private.fillGroup os self (Some p))
  = KUserGroup.Private.users self
    ++ map (fun user => KUser.of_name os (Some user)) (gr_mem p).
Proof.
  simpl. generalize (KUserGroup.Private.users self).
  induction (gr_mem p) as [|user mem IH]; intros acc; simpl.
  - rewrite app_nil_r. reflexivity.
  - rewrite IH, <- app_assoc. reflexivity.
Qed.





(** ** C3: users built from no record *)

Lemma init_blank : is_blank (KUser.mk KUser.Private.init) = true.
Proof. reflexivity. Qed.

(** C3. A user built from no account record is invalid and its
    [loginName()], [homeDir()] and [shell()] are empty: the null record and
    the null name, a name or a uid the lookup has no record for, the
    process user when every lookup fails, and the invalid identifier when,
    as on any POSIX system, no account has the uid [uid_t(-1)]. *)
Theorem invalid_user_is_blank (os : OS) :
  is_blank (KUser.of_passwd os None) = true
  /\ is_blank (KUser.of_name os None) = true
  /\ (forall name, getpwnam os name = None ->
        is_blank (KUser.of_name os (Some name)) = true)
  /\ (forall name, getpwnam os (toLocal8Bit os name) = None ->
        is_blank (KUser.of_QString os name) = true)
  /\ (forall _uid, getpwuid os _uid = None -> is_blank (KUser.of_uid os _uid) = true)
  /\ (forall id, getpwuid os (KUserId.nativeId id) = None ->
        is_blank (KUser.of_KUserId os id) = true)
  /\ (getpwuid os uid_invalid = None ->
        is_blank (KUser.of_KUserId os KUserId.default_) = true
        /\ is_blank (KUser.of_KUserId os (KUserId.of_native (-1))) = true)
  /\ (forall mode,
        getpwnam os (qgetenv os "LOGNAME") = None ->
        getpwnam os (qgetenv os "USER") = None ->
        getpwuid os (getuid os) = None ->
        getpwuid os (geteuid os) = None ->
        is_blank (KUser.of_mode os mode) = true).
Proof.
  repeat split.
  - intros name H. unfold KUser.of_name, KUser.Private.of_name. rewrite H. reflexivity.
  - intros name H. unfold KUser.of_QString, KUser.Private.of_name. rewrite H. reflexivity.
  - intros _uid H. unfold KUser.of_uid. rewrite H. reflexivity.
  - intros id H. unfold KUser.of_KUserId. rewrite H. reflexivity.
  - unfold KUser.of_KUserId. simpl. rewrite H. reflexivity.
  - unfold KUser.of_KUserId. simpl. change (to_u32 (-1)) with uid_invalid.
    rewrite H. reflexivity.
  - intros mode H1 H2 H3 H4. unfold KUser.of_mode, KUser.Private.of_name.
    rewrite H1, H2, H3, H4.
    destruct (UIDMode_eqb mode UseEffectiveUID && negb (geteuid os =? getuid os));
      [reflexivity|].
    unfold KUser.Private.fillPasswd.
    destruct (negb (KUser.Private.uid KUser.Private.init =? getuid os)); reflexivity.
Qed.

Lemma invalid_user_is_blank_witness :
  getpwnam Demo.os "ghost" = None
  /\ is_blank (KUser.of_name Demo.os (Some "ghost")) = true
  /\ getpwuid Demo.os uid_invalid = None
  /\ is_blank (KUser.of_KUserId Demo.os KUserId.default_) = true.
Proof.
  destruct (invalid_user_is_blank Demo.os) as (_ & _ & Hname & _ & _ & _ & Hid & _).
  split; [reflexivity|]. split; [apply Hname; reflexivity|].
  split; [reflexivity|]. apply Hid. reflexivity.
Defined.

(** A record that itself carries the sentinel uid is outside the cases
    above: the user built from it is invalid although its fields are set. *)
Remark sentinel_record_user (os : OS) (p : passwd) :
  pw_uid p = uid_invalid ->
  KUser.isValid (KUser.of_passwd os (Some p)) = false
  /\ KUser.loginName (KUser.of_passwd os (Some p)) = fromLocal8Bit os (pw_name p).
Proof. intros H. unfold KUser.isValid. simpl. rewrite H. split; reflexivity. Qed.

(** ** C4: name resolution *)

(** C4. [fromName] is a total function of the name.  When the lookup of
    the name (the empty name like any other) finds no record, the result
    is the default-constructed, invalid identifier and exactly one warning
    is written; when it finds a record the result carries the record's id,
    the one a [KUser] built from the same name reports, nothing is written,
    and the identifier is valid as long as that id is not the reserved
    sentinel.  The same holds for groups. *)
Theorem fromName_lookup (os : OS) (name : QString) :
  (getpwnam os (toLocal8Bit os name) = None ->
     KUserId_fromName os name
     = (KUserId.default_,
        ["Failed to lookup user " +:+ toLocal8Bit os name +:+ ": "
           +:+ pw_strerror os (toLocal8Bit os name)])
     /\ KUserId.isValid (KUserId_fromName os name).1 = false)
  /\ (forall p, getpwnam os (toLocal8Bit os name) = Some p ->
        KUserId_fromName os name = (KUserId.mk (pw_uid p), [])
        /\ (KUserId_fromName os name).1 = KUser.userId (KUser.of_QString os name)
        /\ (pw_uid p <> uid_invalid ->
            KUserId.isValid (KUserId_fromName os name).1 = true))
  /\ (getgrnam os (toLocal8Bit os name) = None ->
        KGroupId_fromName os name
        = (KGroupId.default_,
           ["Failed to lookup group " +:+ toLocal8Bit os name +:+ ": "
              +:+ gr_strerror os (toLocal8Bit os name)])
        /\ KGroupId.isValid (KGroupId_fromName os name).1 = false)
  /\ (forall g, getgrnam os (toLocal8Bit os name) = Some g ->
        KGroupId_fromName os name = (KGroupId.mk (gr_gid g), [])
        /\ (gr_gid g <> gid_invalid ->
            KGroupId.isValid (KGroupId_fromName os name).1 = true)).
Proof.
  unfold KUserId_fromName, KGroupId_fromName.
  split; [|split; [|split]].
  - intros ->. split; reflexivity.
  - intros p Hp. unfold KUser.of_QString, KUser.Private.of_name. rewrite Hp.
    split; [reflexivity|]. split; [reflexivity|]. simpl. unfold KUserId.isValid. simpl.
    intros H. destruct (Z.eqb_spec (pw_uid p) uid_invalid); [contradiction|reflexivity].
  - intros ->. split; reflexivity.
  - intros g ->. split; [reflexivity|]. simpl. unfold KGroupId.isValid. simpl.
    intros H. destruct (Z.eqb_spec (gr_gid g) gid_invalid); [contradiction|reflexivity].
Qed.

Lemma fromName_lookup_witness :
  KUserId_fromName Demo.os ""
  = (KUserId.default_, ["Failed to lookup user : No such file or directory"])
  /\ KUserId_fromName Demo.os "This_user_does_not_exist"
     = (KUserId.default_,
        ["Failed to lookup user This_user_does_not_exist: No such file or directory"])
  /\ KUserId_fromName Demo.os "alice" = (KUserId.mk 1000, [])
  /\ KUserId.isValid (KUserId_fromName Demo.os "alice").1 = true
  /\ KGroupId_fromName Demo.os "users" = (KGroupId.mk 100, [])
  /\ KGroupId_fromName Demo.os "This_Group_does_not_exist"
     = (KGroupId.default_,
        ["Failed to lookup group This_Group_does_not_exist: No such file or directory"]).
Proof.
  destruct (fromName_lookup Demo.os "") as (He & _).
  destruct (fromName_lookup Demo.os "This_user_does_not_exist") as (Hu & _).
  destruct (fromName_lookup Demo.os "alice") as (_ & Ha & _).
  destruct (fromName_lookup Demo.os "users") as (_ & _ & _ & Hg).
  destruct (fromName_lookup Demo.os "This_Group_does_not_exist") as (_ & _ & Hn & _).
  destruct (Ha Demo.alice eq_refl) as (Ha1 & _ & Ha2).
  split; [exact (proj1 (He eq_refl))|].
  split; [exact (proj1 (Hu eq_refl))|].
  split; [exact Ha1|].
  split; [apply Ha2; vm_compute; discriminate|].
  split; [exact (proj1 (Hg Demo.staff eq_refl))|].
  exact (proj1 (Hn eq_refl)).
Defined.

(** ** C5: the gecos field *)

Lemma split_not_nil (sep : Ascii.ascii) (s : QString) : split sep s <> [].
Proof.
  destruct s as [|c rest]; simpl; [discriminate|].
  destruct (Ascii.eqb c sep); [discriminate|].
  destruct (split sep rest); discriminate.
Qed.

(** Joining the pieces with the separator gives the string back. *)
Lemma join_split (sep : Ascii.ascii) (s : QString) : join sep (split sep s) = s.
Proof.
  induction s as [|c rest IH]; simpl; [reflexivity|].
  destruct (Ascii.eqb_spec c sep) as [->|Hne].
  - pose proof (split_not_nil sep rest) as Hnil.
    destruct (split sep rest) as [|piece pieces]; [contradiction|].
    simpl in *. rewrite IH. reflexivity.
  - destruct (split sep rest) as [|piece pieces] eqn:E.
    + exfalso. eapply split_not_nil; eassumption.
    + destruct pieces as [|piece' pieces']; simpl in *; rewrite <- IH; reflexivity.
Qed.

(** No piece holds the separator. *)
Lemma split_pieces (sep : Ascii.ascii) (s : QString) :
  Forall (fun piece => contains sep piece = false) (split sep s).
Proof.
  induction s as [|c rest IH]; simpl.
  - repeat constructor.
  - destruct (Ascii.eqb c sep) eqn:E.
    + constructor; [reflexivity|exact IH].
    + destruct (split sep rest) as [|piece pieces].
      * repeat constructor. simpl. rewrite E. reflexivity.
      * inversion IH as [|? ? Hpiece Hpieces]; subst.
        constructor; [|exact Hpieces]. simpl. rewrite E, Hpiece. reflexivity.
Qed.

Lemma fill_up_loop_app (rounds : nat) (l : QStringList) :
  (4 <= length l + rounds)%nat ->
  fill_up_loop rounds l = l ++ replicate (4 - length l) EmptyString.
Proof.
  revert l. induction rounds as [|rounds IH]; intros l H; simpl.
  - replace (4 - length l)%nat with 0%nat by lia. simpl. rewrite app_nil_r. reflexivity.
  - destruct (Z.ltb_spec (Z.of_nat (length l)) 4) as [Hlt|Hge].
    + rewrite IH by (rewrite length_app; simpl; lia).
      rewrite length_app. simpl. rewrite <- app_assoc. f_equal.
      replace (4 - length l)%nat with (S (4 - (length l + 1)))%nat by lia.
      reflexivity.
    + replace (4 - length l)%nat with 0%nat by lia. simpl. rewrite app_nil_r. reflexivity.
Qed.

Lemma fill_up_app (l : QStringList) :
  fill_up l = l ++ replicate (4 - length l) EmptyString.
Proof. apply fill_up_loop_app. lia. Qed.

(** When the four rounds are over the loop condition is false. *)
Lemma fill_up_loop_done (l : QStringList) :
  (Z.of_nat (length (fill_up l)) <? 4) = false.
Proof.
  rewrite fill_up_app, length_app, length_replicate.
  apply Z.ltb_ge. lia.
Qed.

Lemma at_fill_up (l : QStringList) (i : nat) : at_ (fill_up l) i = at_ l i.
Proof.
  unfold at_. rewrite fill_up_app.
  destruct (decide (i < length l)%nat) as [Hlt|Hge].
  - rewrite lookup_app_l by exact Hlt. reflexivity.
  - rewrite lookup_app_r by lia. rewrite (lookup_ge_None_2 l i) by lia.
    destruct (replicate (4 - length l) EmptyString !! (i - length l)%nat) as [x|] eqn:E;
      [|reflexivity].
    apply lookup_replicate in E. destruct E as [-> _]. reflexivity.
Qed.

Lemma fill_up_take4 (l : QStringList) :
  take 4 (fill_up l)
  = [at_ (fill_up l) 0; at_ (fill_up l) 1; at_ (fill_up l) 2; at_ (fill_up l) 3].
Proof.
  pose proof (fill_up_loop_done l) as H. apply Z.ltb_ge in H.
  destruct (fill_up l) as [|a [|b [|c [|e rest]]]]; simpl in H; try lia.
  reflexivity.
Qed.

(** C5. For the user filled from an account record: the pieces of the
    gecos field are the text between its commas (joined with commas they
    give the field back, and none holds a comma); the list is extended
    with empty strings to four entries when shorter; and the properties are
    exactly FullName, RoomNumber, WorkPhone, HomePhone bound, in this
    order, to the first four entries, so later pieces play no part. *)
Theorem gecos_properties (os : OS) (p : passwd) :
  let u := KUser.of_passwd os (Some p) in
  let gecos := fromLocal8Bit os (pw_gecos p) in
  let pieces := split ","%char gecos in
  join ","%char pieces = gecos
  /\ Forall (fun piece => contains ","%char piece = false) pieces
  /\ fill_up pieces = pieces ++ replicate (4 - length pieces) EmptyString
  /\ (4 <= length (fill_up pieces))%nat
  /\ KUser.Private.properties (KUser.d u)
     = list_to_map (zip [FullName; RoomNumber; WorkPhone; HomePhone]
                        (QVariant_string <$> take 4 (fill_up pieces)))
  /\ KUser.property u FullName = QVariant_string (at_ pieces 0)
  /\ KUser.property u RoomNumber = QVariant_string (at_ pieces 1)
  /\ KUser.property u WorkPhone = QVariant_string (at_ pieces 2)
  /\ KUser.property u HomePhone = QVariant_string (at_ pieces 3).
Proof.
  intros u gecos pieces.
  split; [apply join_split|]. split; [apply split_pieces|].
  split; [apply fill_up_app|].
  split.
  { pose proof (fill_up_loop_done pieces) as H. apply Z.ltb_ge in H. lia. }
  split.
  { rewrite fill_up_take4. subst u. simpl.
    fold gecos. fold pieces.
    apply map_eq. intros [];
      repeat (rewrite ?lookup_insert_eq; rewrite ?lookup_insert_ne by discriminate);
      reflexivity. }
  unfold KUser.property. subst u. simpl. fold gecos. fold pieces.
  rewrite <- !(at_fill_up pieces).
  repeat split;
    repeat (rewrite ?lookup_insert_eq; rewrite ?lookup_insert_ne by discriminate);
    reflexivity.
Qed.

(** ** C6: the home directory *)

(** C6. For the user filled from an account record, the home directory
    is the decoded [HOME] variable when the record's uid equals the real
    and the effective uid of the process and that value is not empty, and
    the decoded [pw_dir] of the record in every other case: another uid,
    or a [HOME] whose value is empty, as it is when the variable is unset. *)
Theorem homeDir_rule (os : OS) (p : passwd) :
  let home := decodeName os (qgetenv os "HOME") in
  KUser.homeDir (KUser.of_passwd os (Some p))
  = (if (pw_uid p =? getuid os) && (pw_uid p =? geteuid os) && negb (isEmpty home)
     then home else decodeName os (pw_dir p))
  /\ (forall name, getpwnam os name = Some p ->
        KUser.homeDir (KUser.of_name os (Some name))
        = KUser.homeDir (KUser.of_passwd os (Some p)))
  /\ (getenv os "HOME" = None -> qgetenv os "HOME" = EmptyString)
  /\ (isEmpty home = true ->
        KUser.homeDir (KUser.of_passwd os (Some p)) = decodeName os (pw_dir p)).
Proof.
  intros home. unfold KUser.homeDir. simpl. fold home.
  assert (Hrule :
    (let homeDir1 :=
       if (pw_uid p =? getuid os) && (pw_uid p =? geteuid os) then home else EmptyString in
     if isEmpty homeDir1 then decodeName os (pw_dir p) else homeDir1)
    = (if (pw_uid p =? getuid os) && (pw_uid p =? geteuid os) && negb (isEmpty home)
       then home else decodeName os (pw_dir p))).
  { destruct ((pw_uid p =? getuid os) && (pw_uid p =? geteuid os)); simpl;
      [destruct (isEmpty home)|]; reflexivity. }
  split; [exact Hrule|].
  split.
  { intros name H. unfold KUser.of_name, KUser.Private.of_name. rewrite H. reflexivity. }
  split.
  { intros H. unfold qgetenv. rewrite H. reflexivity. }
  intros Hempty. simpl in Hrule. rewrite Hrule, Hempty, andb_false_r. reflexivity.
Qed.

Lemma homeDir_rule_witness :
  KUser.homeDir (KUser.of_passwd Demo.os (Some Demo.alice)) = "/tmp/alice"
  /\ KUser.homeDir (KUser.of_passwd Demo.os (Some Demo.bob)) = "/home/bob"
  /\ KUser.homeDir (KUser.of_name Demo.os (Some "bob")) = "/home/bob".
Proof.
  destruct (homeDir_rule Demo.os Demo.alice) as (Ha & _).
  destruct (homeDir_rule Demo.os Demo.bob) as (Hb & Hn & _).
  split; [exact Ha|]. split; [exact Hb|].
  rewrite (Hn "bob" eq_refl). exact Hb.
Defined.

(** ** C7: the real user of the process *)

Lemma Private_of_name_uid (os : OS) (name : QByteArray) :
  KUser.Private.uid (KUser.Private.of_name os (Some name))
  = match getpwnam os name with Some p => pw_uid p | None => uid_invalid end.
Proof.
  unfold KUser.Private.of_name. destruct (getpwnam os name); reflexivity.
Qed.

(** C7. In real-user mode the result is the account looked up under
    [LOGNAME] when its uid is the real uid of the process; failing that,
    the account looked up under [USER] when its uid is the real uid;
    failing that, the account [getpwuid] has for the real uid.  A candidate
    from the environment is the result only when its uid is the real uid;
    a name with no account gives a candidate with the sentinel uid. *)
Theorem real_user_resolution (os : OS) :
  let real := getuid os in
  let byLogname := KUser.Private.of_name os (Some (qgetenv os "LOGNAME")) in
  let byUser := KUser.Private.of_name os (Some (qgetenv os "USER")) in
  let byUid := KUser.Private.of_passwd os (getpwuid os real) in
  let result := KUser.d (KUser.of_mode os UseRealUserID) in
  result = (if KUser.Private.uid byLogname =? real then byLogname
            else if KUser.Private.uid byUser =? real then byUser
            else byUid)
  /\ (KUser.Private.uid byLogname = real -> result = byLogname)
  /\ (KUser.Private.uid byLogname <> real -> KUser.Private.uid byUser = real ->
        result = byUser)
  /\ (KUser.Private.uid byLogname <> real -> KUser.Private.uid byUser <> real ->
        result = byUid)
  /\ (KUser.Private.uid result <> real -> result = byUid)
  /\ KUser.Private.uid byLogname
     = match getpwnam os (qgetenv os "LOGNAME") with
       | Some p => pw_uid p | None => uid_invalid end
  /\ KUser.Private.uid byUser
     = match getpwnam os (qgetenv os "USER") with
       | Some p => pw_uid p | None => uid_invalid end.
Proof.
  intros real byLogname byUser byUid result.
  assert (Hresult : result = (if KUser.Private.uid byLogname =? real then byLogname
                              else if KUser.Private.uid byUser =? real then byUser
                              else byUid)).
  { unfold result, KUser.of_mode. simpl UIDMode_eqb. cbv beta iota zeta.
    rewrite andb_false_l. fold real byLogname byUser byUid.
    destruct (KUser.Private.uid byLogname =? real); simpl; [reflexivity|].
    destruct (KUser.Private.uid byUser =? real); reflexivity. }
  split; [exact Hresult|].
  split.
  { intros H. rewrite Hresult. apply Z.eqb_eq in H. rewrite H. reflexivity. }
  split.
  { intros H1 H2. rewrite Hresult. apply Z.eqb_neq in H1. apply Z.eqb_eq in H2.
    rewrite H1, H2. reflexivity. }
  split.
  { intros H1 H2. rewrite Hresult. apply Z.eqb_neq in H1. apply Z.eqb_neq in H2.
    rewrite H1, H2. reflexivity. }
  split.
  { intros H. rewrite Hresult in H |- *.
    destruct (Z.eqb_spec (KUser.Private.uid byLogname) real); [contradiction|].
    destruct (Z.eqb_spec (KUser.Private.uid byUser) real); [contradiction|].
    reflexivity. }
  split; apply Private_of_name_uid.
Qed.

Lemma real_user_resolution_witness :
  KUser.Private.uid (KUser.Private.of_name Demo.os (Some (qgetenv Demo.os "LOGNAME")))
    <> getuid Demo.os
  /\ KUser.Private.uid (KUser.Private.of_name Demo.os (Some (qgetenv Demo.os "USER")))
     = getuid Demo.os
  /\ KUser.d (KUser.of_mode Demo.os UseRealUserID)
     = KUser.Private.of_name Demo.os (Some (qgetenv Demo.os "USER")).
Proof.
  destruct (real_user_resolution Demo.os) as (_ & _ & H & _).
  assert (H1 : KUser.Private.uid
                 (KUser.Private.of_name Demo.os (Some (qgetenv Demo.os "LOGNAME")))
               <> getuid Demo.os) by (vm_compute; discriminate).
  assert (H2 : KUser.Private.uid
                 (KUser.Private.of_name Demo.os (Some (qgetenv Demo.os "USER")))
               = getuid Demo.os) by reflexivity.
  split; [exact H1|]. split; [exact H2|]. exact (H H1 H2).
Defined.

(** ** C8: the members of a group, bounded *)

Lemma mid_0_take {A} (l : list A) (n : Z) :
  0 <= n -> mid l 0 n = take (Z.to_nat n) l.
Proof.
  intros Hn. unfold mid. rewrite !drop_0.
  destruct (Z.ltb_spec n 0) as [|_]; [lia|]. simpl.
  destruct (Z.ltb_spec (Z.of_nat (length l)) (0 + n)); [|reflexivity].
  symmetry. apply take_ge. lia.
Qed.

Lemma users_prefix (g : KUserGroup.t) (maxCount : uint) :
  0 <= maxCount <= UINT_MAX ->
  KUserGroup.users g maxCount `prefix_of` KUserGroup.Private.users (KUserGroup.d g).
Proof.
  intros Hrange. unfold KUserGroup.users.
  destruct (Z.ltb_spec (to_int maxCount) 0) as [Hneg|Hpos]; [reflexivity|].
  rewrite mid_0_take by exact Hpos. apply prefix_take.
Qed.

Lemma users_take (g : KUserGroup.t) (maxCount : uint) :
  0 <= maxCount <= UINT_MAX ->
  KUserGroup.size (KUserGroup.Private.users (KUserGroup.d g)) <= INT_MAX ->
  KUserGroup.users g maxCount
  = take (Z.to_nat maxCount) (KUserGroup.Private.users (KUserGroup.d g)).
Proof.
  unfold KUserGroup.size. intros Hrange Hsize. unfold KUserGroup.users.
  destruct (Z.le_gt_cases maxCount INT_MAX) as [Hle|Hgt].
  - rewrite to_int_nonneg by lia.
    destruct (Z.ltb_spec maxCount 0); [lia|]. apply mid_0_take. lia.
  - pose proof (to_int_negative maxCount ltac:(lia)) as Hneg.
    destruct (Z.ltb_spec (to_int maxCount) 0); [|lia].
    symmetry. apply take_ge. lia.
Qed.

(** C8. For a [maxCount] in the range of [uint], [users(maxCount)] is a
    prefix of the stored member list, and with the default, unbounded
    [maxCount] it is the whole list.  A [QList] holds at most [INT_MAX]
    entries; for such a list the result is the first [maxCount] members,
    and so never has more than [maxCount] entries. *)
Theorem users_bounded (g : KUserGroup.t) (maxCount : uint)
    (Hrange : 0 <= maxCount <= UINT_MAX) :
  KUserGroup.users g maxCount `prefix_of` KUserGroup.Private.users (KUserGroup.d g)
  /\ KUserGroup.users g maxCount_default = KUserGroup.Private.users (KUserGroup.d g)
  /\ (KUserGroup.size (KUserGroup.Private.users (KUserGroup.d g)) <= INT_MAX ->
      KUserGroup.users g maxCount
      = take (Z.to_nat maxCount) (KUserGroup.Private.users (KUserGroup.d g))
      /\ KUserGroup.size (KUserGroup.users g maxCount) <= maxCount).
Proof.
  split; [apply users_prefix; exact Hrange|].
  split; [reflexivity|].
  intros Hsize. split; [apply users_take; assumption|].
  rewrite users_take by assumption.
  unfold KUserGroup.size. rewrite length_take. lia.
Qed.

Lemma users_bounded_witness :
  let g := KUserGroup.of_group Demo.os (Some Demo.staff) in
  0 <= 2 <= UINT_MAX
  /\ KUserGroup.size (KUserGroup.Private.users (KUserGroup.d g)) <= INT_MAX
  /\ KUserGroup.users g 2 `prefix_of` KUserGroup.Private.users (KUserGroup.d g)
  /\ KUserGroup.size (KUserGroup.users g 2) <= 2.
Proof.
  intros g.
  assert (Hrange : 0 <= 2 <= UINT_MAX) by (unfold UINT_MAX; lia).
  assert (Hsize : KUserGroup.size (KUserGroup.Private.users (KUserGroup.d g)) <= INT_MAX)
    by (vm_compute; discriminate).
  destruct (users_bounded g 2 Hrange) as (Hprefix & _ & Hbound).
  split; [exact Hrange|]. split; [exact Hsize|]. split; [exact Hprefix|].
  exact (proj2 (Hbound Hsize)).
Defined.

(** ** C10: member names agree with members *)

Lemma userNames_loop_spec (g : KUserGroup.t) (maxCount : uint) (fuel : nat) :
  forall (i : uint) (result : QStringList),
    0 <= maxCount <= UINT_MAX ->
    KUserGroup.size (KUserGroup.Private.users (KUserGroup.d g)) <= INT_MAX ->
    0 <= i <= KUserGroup.size (KUserGroup.Private.users (KUserGroup.d g)) ->
    (length (KUserGroup.Private.users (KUserGroup.d g)) - Z.to_nat i < fuel)%nat ->
    KUserGroup.userNames_loop fuel g maxCount i result
    = Some (result ++ (KUser.loginName <$>
                         take (Z.to_nat (maxCount - i))
                              (drop (Z.to_nat i)
                                 (KUserGroup.Private.users (KUserGroup.d g))))).
Proof.
  unfold KUserGroup.size.
  set (members := KUserGroup.Private.users (KUserGroup.d g)).
  induction fuel as [|fuel IH]; intros i result Hrange Hsize Hi Hfuel; [lia|].
  simpl. fold members. unfold KUserGroup.size.
  rewrite (to_u32_small (Z.of_nat (length members)))
    by (unfold UINT_MAX, INT_MAX in *; lia).
  destruct (Z.ltb_spec i (Z.of_nat (length members))) as [Hlt|Hge]; simpl.
  - destruct (Z.ltb_spec i maxCount) as [Hlt'|Hge'].
    + destruct (lookup_lt_is_Some_2 members (Z.to_nat i) ltac:(lia)) as [u Hu].
      rewrite Hu.
      rewrite to_u32_small by (unfold UINT_MAX, INT_MAX in *; lia).
      rewrite IH; [|assumption|assumption|lia|lia].
      rewrite (drop_S members u (Z.to_nat i) Hu).
      replace (Z.to_nat (maxCount - i)) with (S (Z.to_nat (maxCount - (i + 1)))) by lia.
      replace (Z.to_nat (i + 1)) with (S (Z.to_nat i)) by lia.
      simpl. rewrite <- app_assoc. reflexivity.
    + replace (Z.to_nat (maxCount - i)) with 0%nat by lia.
      rewrite take_0. simpl. rewrite app_nil_r. reflexivity.
  - rewrite drop_ge by lia. rewrite take_nil. simpl. rewrite app_nil_r. reflexivity.
Qed.

(** C10. For a [maxCount] in the range of [uint], values above [INT_MAX]
    included, and a member list within the capacity of a [QList], the loop
    of [userNames(maxCount)] ends within one round more than there are
    members, and its result is the list of the login names of
    [users(maxCount)], in the same order. *)
Theorem userNames_users (g : KUserGroup.t) (maxCount : uint) (fuel : nat)
    (Hrange : 0 <= maxCount <= UINT_MAX)
    (Hsize : KUserGroup.size (KUserGroup.Private.users (KUserGroup.d g)) <= INT_MAX)
    (Hfuel : (length (KUserGroup.Private.users (KUserGroup.d g)) < fuel)%nat) :
  KUserGroup.userNames fuel g maxCount
  = Some (KUser.loginName <$> KUserGroup.users g maxCount).
Proof.
  unfold KUserGroup.userNames.
  rewrite userNames_loop_spec; [|assumption|assumption|unfold KUserGroup.size; lia|simpl; lia].
  rewrite users_take by assumption.
  rewrite Z.sub_0_r. simpl. rewrite drop_0. reflexivity.
Qed.

Lemma userNames_users_witness :
  let g := KUserGroup.of_group Demo.os (Some Demo.wheel) in
  KUserGroup.userNames 3 g 3000000000 = Some ["root"; "alice"]
  /\ KUserGroup.userNames 3 g 3000000000
     = Some (KUser.loginName <$> KUserGroup.users g 3000000000)
  /\ KUserGroup.userNames 3 g 1 = Some (KUser.loginName <$> KUserGroup.users g 1).
Proof.
  intros g.
  assert (Hsize : KUserGroup.size (KUserGroup.Private.users (KUserGroup.d g)) <= INT_MAX)
    by (vm_compute; discriminate).
  assert (Hfuel : (length (KUserGroup.Private.users (KUserGroup.d g)) < 3)%nat)
    by (vm_compute; lia).
  split; [reflexivity|].
  split.
  - apply (userNames_users g 3000000000 3); [unfold UINT_MAX; lia|exact Hsize|exact Hfuel].
  - apply (userNames_users g 1 3); [unfold UINT_MAX; lia|exact Hsize|exact Hfuel].
Defined.

(** ** C9: scanning the databases *)

Lemma fetches_0 (remaining : nat) : fetches 0 remaining = 0%nat.
Proof. reflexivity. Qed.

Lemma fetches_end (limit : nat) : (0 < limit)%nat -> fetches limit 0 = 1%nat.
Proof. destruct limit; [lia|reflexivity]. Qed.

Lemma fetches_step (limit remaining : nat) :
  fetches (S limit) (S remaining) = S (fetches limit remaining).
Proof.
  unfold fetches. simpl. destruct (limit <=? remaining)%nat; reflexivity.
Qed.

(** The user scan and the group scan differ in the database they walk and
    in nothing else; the three cases of a round are proved by the same
    steps. *)

(** The fetch gave entry [k]: one more round follows. *)
Ltac scan_more IH He i k maxCount entries :=
  pose proof (lookup_lt_Some _ _ _ He);
  rewrite to_u32_small by lia;
  rewrite (IH (i + 1) _ _ (S k)); [|lia|reflexivity|lia];
  simpl; rewrite (drop_S _ _ _ He);
  replace (Z.to_nat (maxCount - i)) with (S (Z.to_nat (maxCount - (i + 1)))) by lia;
  replace (length entries - k)%nat with (S (length entries - S k))%nat by lia;
  rewrite fetches_step; simpl; rewrite <- !app_assoc; simpl;
  do 4 f_equal; lia.

(** The fetch gave null: the database is exhausted. *)
Ltac scan_exhausted He k entries :=
  apply lookup_ge_None in He;
  rewrite drop_ge by lia; rewrite take_nil; simpl; rewrite app_nil_r;
  replace (length entries - k)%nat with 0%nat by lia;
  rewrite fetches_end by lia; rewrite Nat.min_0_r, Nat.add_0_r; reflexivity.

(** [i] reached [maxCount]: no fetch is made. *)
Ltac scan_full st i maxCount :=
  replace (Z.to_nat (maxCount - i)) with 0%nat by lia;
  rewrite take_0, fetches_0; simpl; rewrite !app_nil_r, Nat.add_0_r;
  destruct st; simpl in *; subst; reflexivity.

Section Scan.

Variable os : OS.
Variable maxCount : uint.
Hypothesis maxCount_range : 0 <= maxCount <= UINT_MAX.

Lemma allUsers_loop_spec (fuel : nat) :
  forall (i : uint) (st : DbState) (result : list KUser.t) (k : nat),
    0 <= i <= maxCount ->
    pw_cursor st = Some k ->
    (length (pw_entries os) - k < fuel)%nat ->
    allUsers_loop fuel os maxCount i st result
    = Some (result ++ ((fun p => KUser.of_passwd os (Some p)) <$>
                         take (Z.to_nat (maxCount - i)) (drop k (pw_entries os))),
            {| pw_cursor :=
                 Some (k + min (Z.to_nat (maxCount - i)) (length (pw_entries os) - k))%nat;
               gr_cursor := gr_cursor st;
               db_calls :=
                 db_calls st
                 ++ replicate (fetches (Z.to_nat (maxCount - i))
                                       (length (pw_entries os) - k)) Getpwent |}).
Proof.
  induction fuel as [|fuel IH]; intros i st result k Hi Hk Hfuel; [lia|].
  simpl. destruct (Z.ltb_spec i maxCount) as [Hlt|Hge].
  - unfold getpwent. rewrite Hk. simpl.
    destruct (pw_entries os !! k) as [p|] eqn:Hp.
    + scan_more IH Hp i k maxCount (pw_entries os).
    + scan_exhausted Hp k (pw_entries os).
  - scan_full st i maxCount.
Qed.

Lemma allGroups_loop_spec (fuel : nat) :
  forall (i : uint) (st : DbState) (result : list KUserGroup.t) (k : nat),
    0 <= i <= maxCount ->
    gr_cursor st = Some k ->
    (length (gr_entries os) - k < fuel)%nat ->
    KUserGroup.allGroups_loop fuel os maxCount i st result
    = Some (result ++ ((fun g => KUserGroup.of_group os (Some g)) <$>
                         take (Z.to_nat (maxCount - i)) (drop k (gr_entries os))),
            {| pw_cursor := pw_cursor st;
               gr_cursor :=
                 Some (k + min (Z.to_nat (maxCount - i)) (length (gr_entries os) - k))%nat;
               db_calls :=
                 db_calls st
                 ++ replicate (fetches (Z.to_nat (maxCount - i))
                                       (length (gr_entries os) - k)) Getgrent |}).
Proof.
  induction fuel as [|fuel IH]; intros i st result k Hi Hk Hfuel; [lia|].
  simpl. destruct (Z.ltb_spec i maxCount) as [Hlt|Hge].
  - unfold getgrent. rewrite Hk. simpl.
    destruct (gr_entries os !! k) as [g|] eqn:Hg.
    + scan_more IH Hg i k maxCount (gr_entries os).
    + scan_exhausted Hg k (gr_entries os).
  - scan_full st i maxCount.
Qed.

(** [allUsers] from any state of the cursors. *)
Lemma allUsers_run (fuel : nat) (st : DbState) :
  (length (pw_entries os) < fuel)%nat ->
  allUsers fuel os maxCount st
  = Some ((fun p => KUser.of_passwd os (Some p))
            <$> take (Z.to_nat maxCount) (pw_entries os),
          {| pw_cursor := None;
             gr_cursor := gr_cursor st;
             db_calls :=
               db_calls st ++ [Setpwent]
               ++ replicate (fetches (Z.to_nat maxCount) (length (pw_entries os))) Getpwent
               ++ [Endpwent] |}).
Proof.
  intros Hfuel. unfold allUsers.
  rewrite (allUsers_loop_spec fuel 0 (setpwent st) [] 0%nat); [|lia|reflexivity|lia].
  unfold endpwent. simpl. rewrite Z.sub_0_r, Nat.sub_0_r, drop_0.
  rewrite <- !app_assoc. reflexivity.
Qed.

(** [allGroups] from any state of the cursors. *)
Lemma allGroups_run (fuel : nat) (st : DbState) :
  (length (gr_entries os) < fuel)%nat ->
  KUserGroup.allGroups fuel os maxCount st
  = Some ((fun g => KUserGroup.of_group os (Some g))
            <$> take (Z.to_nat maxCount) (gr_entries os),
          {| pw_cursor := pw_cursor st;
             gr_cursor := None;
             db_calls :=
               db_calls st ++ [Setgrent]
               ++ replicate (fetches (Z.to_nat maxCount) (length (gr_entries os))) Getgrent
               ++ [Endgrent] |}).
Proof.
  intros Hfuel. unfold KUserGroup.allGroups.
  rewrite (allGroups_loop_spec fuel 0 (setgrent st) [] 0%nat); [|lia|reflexivity|lia].
  unfold endgrent. simpl. rewrite Z.sub_0_r, Nat.sub_0_r, drop_0.
  rewrite <- !app_assoc. reflexivity.
Qed.

End Scan.

(** What the constructors put into an entry, field by field. *)

Lemma of_passwd_record (os : OS) (p : passwd) :
  let home := decodeName os (qgetenv os "HOME") in
  let pieces := split ","%char (fromLocal8Bit os (pw_gecos p)) in
  KUser.of_passwd os (Some p)
  = KUser.mk
      (KUser.Private.mk
         (pw_uid p) (pw_gid p) (fromLocal8Bit os (pw_name p))
         (if (pw_uid p =? getuid os) && (pw_uid p =? geteuid os) && negb (isEmpty home)
          then home else decodeName os (pw_dir p))
         (fromLocal8Bit os (pw_shell p))
         (<[HomePhone := QVariant_string (default EmptyString (pieces !! 3%nat))]>
          (<[WorkPhone := QVariant_string (default EmptyString (pieces !! 2%nat))]>
           (<[RoomNumber := QVariant_string (default EmptyString (pieces !! 1%nat))]>
            (<[FullName := QVariant_string (default EmptyString (pieces !! 0%nat))]>
               ∅))))).
Proof.
  intros home pieces.
  cbv beta iota zeta delta
    [KUser.of_passwd KUser.Private.of_passwd KUser.Private.fillPasswd
     KUser.Private.init KUser.Private.homeDir KUser.Private.properties].
  fold home. fold pieces. rewrite !at_fill_up. unfold at_.
  do 2 f_equal.
  destruct ((pw_uid p =? getuid os) && (pw_uid p =? geteuid os)); cbn [andb isEmpty];
    [destruct (isEmpty home)|]; reflexivity.
Qed.

Lemma of_passwd_none (os : OS) :
  KUser.of_passwd os None
  = KUser.mk (KUser.Private.mk 4294967295 4294967295
                EmptyString EmptyString EmptyString ∅).
Proof. reflexivity. Qed.

Lemma of_name_lookup (os : OS) (member : QByteArray) :
  KUser.of_name os (Some member) = KUser.of_passwd os (getpwnam os member).
Proof. reflexivity. Qed.

Lemma of_group_record (os : OS) (g : group) :
  KUserGroup.of_group os (Some g)
  = KUserGroup.mk
      (KUserGroup.Private.mk
         (gr_gid g) (fromLocal8Bit os (gr_name g))
         ((fun member => KUser.of_passwd os (getpwnam os member)) <$> gr_mem g)).
Proof.
  pose proof (fillGroup_users os KUserGroup.Private.init g) as Husers.
  unfold KUserGroup.of_group, KUserGroup.Private.of_group.
  destruct (KUserGroup.Private.fillGroup os KUserGroup.Private.init (Some g))
    as [gid' name' users'] eqn:E.
  cbn [KUserGroup.Private.users] in Husers. rewrite Husers.
  cbn [KUserGroup.Private.fillGroup] in E. injection E as <- <- _.
  reflexivity.
Qed.

(** C9. For a [maxCount] in the range of [uint] and whatever state the
    cursors are in, [allUsers(maxCount)] and [allGroups(maxCount)] end
    within one round more than the database has entries and return the
    first [min(maxCount, N)] of its [N] entries in database order, each
    built into a [KUser] / [KUserGroup] from its record, a group with its
    member names resolved to users.  The cursor calls of a run are one
    rewind, then the fetches, then the close, and the cursor is closed in
    the state the call returns; the other database's cursor is not
    touched.

    Every entry is complete when the scan returns it.  The user of a
    record holds the record's uid and gid, its decoded name and shell, the
    home directory by the [HOME] rule, and the four properties from the
    pieces of the gecos field.  The group of a record holds the record's
    gid, its decoded name, and one user per listed member name, in order:
    the user of the account [getpwnam] has for the name, or, when it has
    none, the user with the sentinel ids, empty strings and no
    properties. *)
Theorem allUsers_allGroups_scan (os : OS) (maxCount : uint) (st : DbState)
    (fuel_pw fuel_gr : nat)
    (Hrange : 0 <= maxCount <= UINT_MAX)
    (Hpw : (length (pw_entries os) < fuel_pw)%nat)
    (Hgr : (length (gr_entries os) < fuel_gr)%nat) :
  let n := Z.to_nat maxCount in
  allUsers fuel_pw os maxCount st
  = Some ((fun p => KUser.of_passwd os (Some p)) <$> take n (pw_entries os),
          {| pw_cursor := None;
             gr_cursor := gr_cursor st;
             db_calls :=
               db_calls st ++ [Setpwent]
               ++ replicate (fetches n (length (pw_entries os))) Getpwent
               ++ [Endpwent] |})
  /\ KUserGroup.allGroups fuel_gr os maxCount st
     = Some ((fun g => KUserGroup.of_group os (Some g)) <$> take n (gr_entries os),
             {| pw_cursor := pw_cursor st;
                gr_cursor := None;
                db_calls :=
                  db_calls st ++ [Setgrent]
                  ++ replicate (fetches n (length (gr_entries os))) Getgrent
                  ++ [Endgrent] |})
  /\ length (take n (pw_entries os)) = min n (length (pw_entries os))
  /\ length (take n (gr_entries os)) = min n (length (gr_entries os))
  /\ (forall g,
        KUserGroup.Private.users (KUserGroup.d (KUserGroup.of_group os (Some g)))
        = (fun member => KUser.of_name os (Some member)) <$> gr_mem g)
  /\ (forall p,
        let home := decodeName os (qgetenv os "HOME") in
        let pieces := split ","%char (fromLocal8Bit os (pw_gecos p)) in
        KUser.of_passwd os (Some p)
        = KUser.mk
            (KUser.Private.mk
               (pw_uid p) (pw_gid p) (fromLocal8Bit os (pw_name p))
               (if (pw_uid p =? getuid os) && (pw_uid p =? geteuid os)
                   && negb (isEmpty home)
                then home else decodeName os (pw_dir p))
               (fromLocal8Bit os (pw_shell p))
               (<[HomePhone := QVariant_string (default EmptyString (pieces !! 3%nat))]>
                (<[WorkPhone := QVariant_string (default EmptyString (pieces !! 2%nat))]>
                 (<[RoomNumber := QVariant_string (default EmptyString (pieces !! 1%nat))]>
                  (<[FullName := QVariant_string (default EmptyString (pieces !! 0%nat))]>
                     ∅))))))
  /\ (forall g,
        KUserGroup.of_group os (Some g)
        = KUserGroup.mk
            (KUserGroup.Private.mk
               (gr_gid g) (fromLocal8Bit os (gr_name g))
               ((fun member => KUser.of_passwd os (getpwnam os member)) <$> gr_mem g)))
  /\ (forall member,
        KUser.of_name os (Some member) = KUser.of_passwd os (getpwnam os member))
  /\ KUser.of_passwd os None
     = KUser.mk (KUser.Private.mk 4294967295 4294967295
                   EmptyString EmptyString EmptyString ∅).
Proof.
  intros n. split; [|split; [|split; [|split; [|split; [|split; [|split; [|split]]]]]]].
  - apply allUsers_run; assumption.
  - apply allGroups_run; assumption.
  - apply length_take.
  - apply length_take.
  - intros g. apply (fillGroup_users os KUserGroup.Private.init g).
  - intros p. apply of_passwd_record.
  - intros g. apply of_group_record.
  - intros member. apply of_name_lookup.
  - apply of_passwd_none.
Qed.

Lemma allUsers_allGroups_scan_witness :
  0 <= 2 <= UINT_MAX
  /\ (length (pw_entries Demo.os) < 4)%nat
  /\ (length (gr_entries Demo.os) < 4)%nat
  /\ allUsers 4 Demo.os 2 Demo.closed
     = Some ([KUser.of_passwd Demo.os (Some Demo.root);
              KUser.of_passwd Demo.os (Some Demo.alice)],
             {| pw_cursor := None; gr_cursor := None;
                db_calls := [Setpwent; Getpwent; Getpwent; Endpwent] |})
  /\ KUserGroup.allGroups 4 Demo.os maxCount_default Demo.closed
     = Some ([KUserGroup.of_group Demo.os (Some Demo.wheel);
              KUserGroup.of_group Demo.os (Some Demo.staff);
              KUserGroup.of_group Demo.os (Some Demo.nogroup)],
             {| pw_cursor := None; gr_cursor := None;
                db_calls := [Setgrent; Getgrent; Getgrent; Getgrent; Getgrent; Endgrent] |})
  /\ ((fun r : list KUser.t * DbState =>
         (fun u => (KUser.Private.uid (KUser.d u), KUser.Private.gid (KUser.d u),
                    KUser.loginName u, KUser.homeDir u, KUser.shell u,
                    KUser.property u FullName, KUser.property u HomePhone)) <$> r.1)
        <$> allUsers 4 Demo.os 2 Demo.closed)
     = Some [(0, 0, "root", "/root", "/bin/sh",
              QVariant_string "root", QVariant_string "");
             (1000, 100, "alice", "/tmp/alice", "/bin/bash",
              QVariant_string "Alice Liddell", QVariant_string "555-0199")]
  /\ ((fun r : list KUserGroup.t * DbState =>
         (fun g => (KUserGroup.Private.gid (KUserGroup.d g), KUserGroup.name g,
                    (fun u => (KUser.Private.uid (KUser.d u), KUser.loginName u))
                      <$> KUserGroup.Private.users (KUserGroup.d g))) <$> r.1)
        <$> KUserGroup.allGroups 4 Demo.os maxCount_default Demo.closed)
     = Some [(10, "wheel", [(0, "root"); (1000, "alice")]);
             (100, "users", [(1000, "alice"); (1001, "bob"); (4294967295, "")]);
             (65534, "nogroup", [])].
Proof.
  assert (H2 : 0 <= 2 <= UINT_MAX) by (unfold UINT_MAX; lia).
  assert (Hmax : 0 <= maxCount_default <= UINT_MAX)
    by (unfold maxCount_default, UINT_MAX; lia).
  assert (Hpw : (length (pw_entries Demo.os) < 4)%nat) by (simpl; lia).
  assert (Hgr : (length (gr_entries Demo.os) < 4)%nat) by (simpl; lia).
  split; [exact H2|]. split; [exact Hpw|]. split; [exact Hgr|].
  split; [|split; [|split]].
  - exact (proj1 (allUsers_allGroups_scan Demo.os 2 Demo.closed 4 4 H2 Hpw Hgr)).
  - exact (proj1 (proj2 (allUsers_allGroups_scan Demo.os maxCount_default Demo.closed
                           4 4 Hmax Hpw Hgr))).
  - rewrite (proj1 (allUsers_allGroups_scan Demo.os 2 Demo.closed 4 4 H2 Hpw Hgr)).
    reflexivity.
  - rewrite (proj1 (proj2 (allUsers_allGroups_scan Demo.os maxCount_default Demo.closed
                             4 4 Hmax Hpw Hgr))).
    reflexivity.
Defined.

(** * Further properties of the code *)

(** ** Equality of users and of groups as relations *)

Lemma KUser_eqb_true (u v : KUser.t) :
  KUser.eqb u v = true
  <-> KUser.Private.uid (KUser.d u) <> uid_invalid
      /\ KUser.Private.uid (KUser.d u) = KUser.Private.uid (KUser.d v).
Proof.
  unfold KUser.eqb, KUser.isValid. rewrite andb_true_iff, negb_true_iff.
  rewrite Z.eqb_neq, Z.eqb_eq. reflexivity.
Qed.

(** X1. [KUser::operator==] is symmetric and transitive, and a user is
    equal to itself exactly when it is valid: an invalid user is unequal to
    every user, itself and its copies included. *)
Theorem KUser_eqb_partial_equivalence (u v w : KUser.t) :
  KUser.eqb u v = KUser.eqb v u
  /\ KUser.eqb u u = KUser.isValid u
  /\ (KUser.isValid u = false -> KUser.eqb u v = false /\ KUser.neqb v u = true)
  /\ (KUser.eqb u v = true -> KUser.eqb v w = true -> KUser.eqb u w = true).
Proof.
  split; [|split; [|split]].
  - destruct (KUser.eqb u v) eqn:Huv, (KUser.eqb v u) eqn:Hvu; try reflexivity.
    + apply KUser_eqb_true in Huv. destruct Huv as [Hu Heq].
      assert (KUser.eqb v u = true) as Hc
        by (apply KUser_eqb_true; split; congruence).
      congruence.
    + apply KUser_eqb_true in Hvu. destruct Hvu as [Hv Heq].
      assert (KUser.eqb u v = true) as Hc
        by (apply KUser_eqb_true; split; congruence).
      congruence.
  - unfold KUser.eqb. rewrite Z.eqb_refl, andb_true_r. reflexivity.
  - intros Hu. unfold KUser.neqb, KUser.eqb. rewrite Hu. simpl.
    unfold KUser.isValid in *. apply negb_false_iff, Z.eqb_eq in Hu.
    split; [reflexivity|].
    destruct (Z.eqb_spec (KUser.Private.uid (KUser.d v)) uid_invalid) as [|Hv];
      [reflexivity|].
    simpl. rewrite Hu. apply negb_true_iff, Z.eqb_neq. exact Hv.
  - intros Huv Hvw. apply KUser_eqb_true in Huv, Hvw. apply KUser_eqb_true.
    destruct Huv, Hvw. split; congruence.
Qed.

Lemma KUser_eqb_partial_equivalence_witness :
  let alice := KUser.of_QString Demo.os "alice" in
  let alice' := KUser.of_uid Demo.os 1000 in
  let ghost := KUser.of_QString Demo.os "ghost" in
  KUser.eqb alice alice' = true
  /\ KUser.eqb alice alice = true
  /\ KUser.isValid ghost = false
  /\ KUser.eqb ghost ghost = false.
Proof.
  intros alice alice' ghost.
  destruct (KUser_eqb_partial_equivalence alice alice' alice) as (_ & _ & _ & Htrans).
  destruct (KUser_eqb_partial_equivalence ghost ghost ghost) as (_ & _ & Hinv & _).
  assert (H1 : KUser.eqb alice alice' = true) by reflexivity.
  assert (H2 : KUser.eqb alice' alice = true) by reflexivity.
  assert (H3 : KUser.isValid ghost = false) by reflexivity.
  split; [exact H1|]. split; [exact (Htrans H1 H2)|]. split; [exact H3|].
  exact (proj1 (Hinv H3)).
Defined.

Lemma KUserGroup_eqb_true (g h : KUserGroup.t) :
  KUserGroup.eqb g h = true
  <-> KUserGroup.Private.gid (KUserGroup.d g) <> gid_invalid
      /\ KUserGroup.Private.gid (KUserGroup.d g) = KUserGroup.Private.gid (KUserGroup.d h).
Proof.
  unfold KUserGroup.eqb, KUserGroup.isValid. rewrite andb_true_iff, negb_true_iff.
  rewrite Z.eqb_neq, Z.eqb_eq. reflexivity.
Qed.

(** X2. [KUserGroup::operator==] is true exactly when both groups are
    valid and their gids are equal, whatever their names and members; it is
    symmetric, a group equals itself exactly when it is valid, and
    [operator!=] is the negation. *)
Theorem KUserGroup_equality (g h : KUserGroup.t)
    (name1 name2 : QString) (users1 users2 : list KUser.t) :
  KUserGroup.eqb g h
  = KUserGroup.isValid g && KUserGroup.isValid h
    && (KUserGroup.Private.gid (KUserGroup.d g) =? KUserGroup.Private.gid (KUserGroup.d h))
  /\ KUserGroup.eqb
       (KUserGroup.mk (KUserGroup.Private.mk
                         (KUserGroup.Private.gid (KUserGroup.d g)) name1 users1))
       (KUserGroup.mk (KUserGroup.Private.mk
                         (KUserGroup.Private.gid (KUserGroup.d h)) name2 users2))
     = KUserGroup.eqb g h
  /\ KUserGroup.eqb g h = KUserGroup.eqb h g
  /\ KUserGroup.eqb g g = KUserGroup.isValid g
  /\ KUserGroup.neqb g h = negb (KUserGroup.eqb g h).
Proof.
  destruct g as [[gid1 n1 us1]], h as [[gid2 n2 us2]].
  unfold KUserGroup.neqb, KUserGroup.eqb, KUserGroup.isValid. simpl.
  split; [|split; [reflexivity|split; [|split; [|reflexivity]]]].
  - destruct (Z.eqb_spec gid1 gid2) as [->|Hne].
    + destruct (gid2 =? gid_invalid); reflexivity.
    + rewrite !andb_false_r. reflexivity.
  - destruct (Z.eqb_spec gid1 gid2) as [->|Hne].
    + rewrite Z.eqb_refl. reflexivity.
    + rewrite (proj2 (Z.eqb_neq gid2 gid1)) by congruence.
      rewrite !andb_false_r. reflexivity.
  - rewrite Z.eqb_refl, andb_true_r. reflexivity.
Qed.

(** ** The process user when the real and effective uids differ *)

(** X3. In effective mode with the effective uid equal to the real uid
    the constructor does what real mode does; with a different effective
    uid it is the lookup of the effective uid and nothing else, so the
    [LOGNAME] and [USER] variables play no part. *)
Theorem effective_user_resolution (os : OS) :
  (geteuid os = getuid os ->
     KUser.of_mode os UseEffectiveUID = KUser.of_mode os UseRealUserID)
  /\ (geteuid os <> getuid os ->
        KUser.of_mode os UseEffectiveUID = KUser.of_uid os (geteuid os)).
Proof.
  unfold KUser.of_mode, KUser.of_uid. simpl UIDMode_eqb. split; intros H.
  - rewrite (proj2 (Z.eqb_eq _ _) H). reflexivity.
  - rewrite (proj2 (Z.eqb_neq _ _) H). reflexivity.
Qed.

Lemma effective_user_resolution_witness :
  geteuid Demo.os = getuid Demo.os
  /\ KUser.of_mode Demo.os UseEffectiveUID = KUser.of_mode Demo.os UseRealUserID
  /\ geteuid Setuid.os <> getuid Setuid.os
  /\ KUser.of_mode Setuid.os UseEffectiveUID = KUser.of_uid Setuid.os 0.
Proof.
  assert (H1 : geteuid Demo.os = getuid Demo.os) by reflexivity.
  assert (H2 : geteuid Setuid.os <> getuid Setuid.os) by (simpl; discriminate).
  split; [exact H1|].
  split; [exact (proj1 (effective_user_resolution Demo.os) H1)|].
  split; [exact H2|].
  exact (proj2 (effective_user_resolution Setuid.os) H2).
Defined.

(** X4. In a process whose real and effective uids differ no user takes
    its home directory from [HOME]: for every account record the home
    directory is the record's [pw_dir]. *)
Theorem setuid_home_from_record (os : OS) (p : passwd) :
  geteuid os <> getuid os ->
  KUser.homeDir (KUser.of_passwd os (Some p)) = decodeName os (pw_dir p).
Proof.
  intros H. unfold KUser.homeDir. simpl.
  destruct (Z.eqb_spec (pw_uid p) (getuid os)) as [Hu|Hu];
    destruct (Z.eqb_spec (pw_uid p) (geteuid os)) as [He|He]; simpl;
    try reflexivity.
  exfalso. apply H. congruence.
Qed.

Lemma setuid_home_from_record_witness :
  geteuid Setuid.os <> getuid Setuid.os
  /\ KUser.homeDir (KUser.of_passwd Setuid.os (Some Demo.alice)) = "/home/alice"
  /\ KUser.homeDir (KUser.of_passwd Setuid.os (Some Demo.root)) = "/root".
Proof.
  assert (H : geteuid Setuid.os <> getuid Setuid.os) by (simpl; discriminate).
  split; [exact H|].
  split; [exact (setuid_home_from_record Setuid.os Demo.alice H)|].
  exact (setuid_home_from_record Setuid.os Demo.root H).
Defined.

(** ** Properties of a user: every key, and the gecos field read back *)

Lemma property_of_record (os : OS) (p : passwd) (which : UserProperty) :
  KUser.property (KUser.of_passwd os (Some p)) which
  = QVariant_string
      (at_ (split ","%char (fromLocal8Bit os (pw_gecos p))) (UserProperty_code which)).
Proof.
  unfold KUser.property. simpl.
  rewrite <- (at_fill_up (split ","%char (fromLocal8Bit os (pw_gecos p)))).
  destruct which; simpl;
    repeat (rewrite ?lookup_insert_eq; rewrite ?lookup_insert_ne by discriminate);
    reflexivity.
Qed.

(** X5. [property(which)] of a user built from no record is the invalid
    variant for every key, the map being empty; of a user built from a
    record it is for every key a string variant, never the invalid one,
    also when the gecos field is empty or has fewer than four pieces. *)
Theorem property_lookup (os : OS) (p : passwd) (which : UserProperty) :
  KUser.property (KUser.of_passwd os None) which = QVariant_invalid
  /\ KUser.property (KUser.of_name os None) which = QVariant_invalid
  /\ KUser.property (KUser.of_passwd os (Some p)) which
     = QVariant_string
         (at_ (split ","%char (fromLocal8Bit os (pw_gecos p))) (UserProperty_code which))
  /\ KUser.property (KUser.of_passwd os (Some p)) which <> QVariant_invalid.
Proof.
  split; [|split; [|split]].
  - unfold KUser.property. simpl. rewrite lookup_empty. reflexivity.
  - unfold KUser.property. simpl. rewrite lookup_empty. reflexivity.
  - apply property_of_record.
  - rewrite property_of_record. discriminate.
Qed.

Lemma split_plain (sep : Ascii.ascii) (s : QString) :
  contains sep s = false -> split sep s = [s].
Proof.
  induction s as [|c rest IH]; simpl; [reflexivity|].
  intros H. apply orb_false_iff in H. destruct H as [Hc Hrest].
  rewrite Hc, (IH Hrest). reflexivity.
Qed.

Lemma split_app_sep (sep : Ascii.ascii) (piece tail : QString) :
  contains sep piece = false ->
  split sep (piece +:+ String sep tail) = piece :: split sep tail.
Proof.
  induction piece as [|c rest IH]; simpl; intros H.
  - rewrite Ascii.eqb_refl. reflexivity.
  - apply orb_false_iff in H. destruct H as [Hc Hrest].
    rewrite Hc, (IH Hrest). reflexivity.
Qed.

(** Splitting what was joined gives the pieces back. *)
Lemma split_join (sep : Ascii.ascii) (l : QStringList) :
  l <> [] ->
  Forall (fun piece => contains sep piece = false) l ->
  split sep (join sep l) = l.
Proof.
  induction l as [|piece rest IH]; intros Hnil Hall; [contradiction|].
  inversion Hall as [|? ? Hpiece Hrest]; subst.
  destruct rest as [|piece' rest'].
  - simpl. apply split_plain. exact Hpiece.
  - change (join sep (piece :: piece' :: rest'))
      with (piece +:+ String sep (join sep (piece' :: rest'))).
    rewrite split_app_sep by exact Hpiece.
    rewrite IH; [reflexivity|discriminate|exact Hrest].
Qed.

(** X6. When the gecos field of a record is a list of comma-free fields
    joined with commas, the four properties read those fields back in
    order: FullName the first, RoomNumber the second, WorkPhone the third,
    HomePhone the fourth, each the empty string when the list is too short
    to have it.  A gecos field without a comma is the full name as a whole. *)
Theorem gecos_round_trip (os : OS) (p : passwd) (fields : QStringList) :
  fields <> [] ->
  Forall (fun field => contains ","%char field = false) fields ->
  fromLocal8Bit os (pw_gecos p) = join ","%char fields ->
  let u := KUser.of_passwd os (Some p) in
  KUser.property u FullName = QVariant_string (at_ fields 0)
  /\ KUser.property u RoomNumber = QVariant_string (at_ fields 1)
  /\ KUser.property u WorkPhone = QVariant_string (at_ fields 2)
  /\ KUser.property u HomePhone = QVariant_string (at_ fields 3)
  /\ (contains ","%char (fromLocal8Bit os (pw_gecos p)) = false ->
      KUser.property u FullName = QVariant_string (fromLocal8Bit os (pw_gecos p))
      /\ KUser.property u RoomNumber = QVariant_string EmptyString).
Proof.
  intros Hnil Hall Hgecos u. subst u.
  rewrite !property_of_record, Hgecos, split_join by assumption.
  do 4 (split; [reflexivity|]).
  intros Hplain.
  assert (Hone : fields = [join ","%char fields]).
  { rewrite <- (split_join ","%char fields Hnil Hall) at 1.
    apply split_plain. exact Hplain. }
  split; rewrite Hone; reflexivity.
Qed.

Lemma gecos_round_trip_witness :
  let u := KUser.of_passwd Demo.os (Some Demo.bob) in
  fromLocal8Bit Demo.os (pw_gecos Demo.bob) = join ","%char ["Bob"; ""; "7"]
  /\ KUser.property u FullName = QVariant_string "Bob"
  /\ KUser.property u RoomNumber = QVariant_string ""
  /\ KUser.property u WorkPhone = QVariant_string "7"
  /\ KUser.property u HomePhone = QVariant_string "".
Proof.
  intros u.
  assert (Hnil : ["Bob"; ""; "7"] <> ([] : list string)) by discriminate.
  assert (Hall : Forall (fun field => contains ","%char field = false) ["Bob"; ""; "7"])
    by (repeat constructor).
  assert (Hgecos : fromLocal8Bit Demo.os (pw_gecos Demo.bob)
                   = join ","%char ["Bob"; ""; "7"]) by reflexivity.
  destruct (gecos_round_trip Demo.os Demo.bob ["Bob"; ""; "7"] Hnil Hall Hgecos)
    as (H0 & H1 & H2 & H3 & _).
  split; [exact Hgecos|]. split; [exact H0|]. split; [exact H1|].
  split; [exact H2|exact H3].
Defined.

(** ** The superuser *)

(** X7. [isSuperUser()] implies [isValid()], any two superusers are
    equal, and a user built from no record is never the superuser. *)
Theorem superuser_is_valid (os : OS) (u v : KUser.t) :
  (KUser.isSuperUser u = true ->
     KUser.isValid u = true
     /\ (KUser.isSuperUser v = true -> KUser.eqb u v = true))
  /\ KUser.isSuperUser (KUser.of_passwd os None) = false.
Proof.
  split; [|reflexivity].
  unfold KUser.isSuperUser. intros Hu. apply Z.eqb_eq in Hu.
  assert (Hvalid : KUser.isValid u = true)
    by (unfold KUser.isValid; rewrite Hu; reflexivity).
  split; [exact Hvalid|].
  intros Hv. apply Z.eqb_eq in Hv. unfold KUser.eqb.
  rewrite Hvalid, Hu, Hv. reflexivity.
Qed.

Lemma superuser_is_valid_witness :
  let root := KUser.of_QString Demo.os "root" in
  KUser.isSuperUser root = true
  /\ KUser.isValid root = true
  /\ KUser.eqb root (KUser.of_uid Demo.os 0) = true.
Proof.
  intros root.
  assert (H : KUser.isSuperUser root = true) by reflexivity.
  destruct (proj1 (superuser_is_valid Demo.os root (KUser.of_uid Demo.os 0)) H)
    as (Hvalid & Heq).
  split; [exact H|]. split; [exact Hvalid|]. apply Heq. reflexivity.
Defined.

(** ** Groups built from a record, and from none *)

Lemma of_group_users (os : OS) (g : group) :
  KUserGroup.Private.users (KUserGroup.d (KUserGroup.of_group os (Some g)))
  = (fun member => KUser.of_name os (Some member)) <$> gr_mem g.
Proof. apply (fillGroup_users os KUserGroup.Private.init g). Qed.

Lemma users_default (g : KUserGroup.t) :
  KUserGroup.users g maxCount_default = KUserGroup.Private.users (KUserGroup.d g).
Proof. reflexivity. Qed.

Lemma loginName_of_name (os : OS) (member : QByteArray) :
  KUser.loginName (KUser.of_name os (Some member)) = member_login os member.
Proof.
  unfold member_login, KUser.of_name, KUser.Private.of_name.
  destruct (getpwnam os member); reflexivity.
Qed.

Lemma isValid_of_name (os : OS) (member : QByteArray) :
  KUser.isValid (KUser.of_name os (Some member))
  = match getpwnam os member with
    | Some p => negb (pw_uid p =? uid_invalid)
    | None => false
    end.
Proof.
  unfold KUser.of_name, KUser.Private.of_name.
  destruct (getpwnam os member); reflexivity.
Qed.

(** X8. A group built from a record has one member entry per listed
    name, in the order listed, none dropped: a name with no account gives
    an invalid entry.  [userNames()] therefore has one string per listed
    name, the login name of the account the name resolves to, and the empty
    string for a name with no account, not the name as listed. *)
Theorem group_member_names (os : OS) (g : group) (fuel : nat) :
  Z.of_nat (length (gr_mem g)) <= INT_MAX ->
  (length (gr_mem g) < fuel)%nat ->
  let grp := KUserGroup.of_group os (Some g) in
  length (KUserGroup.users grp maxCount_default) = length (gr_mem g)
  /\ KUserGroup.userNames fuel grp maxCount_default = Some (member_login os <$> gr_mem g)
  /\ (forall i member, gr_mem g !! i = Some member ->
        KUserGroup.users grp maxCount_default !! i = Some (KUser.of_name os (Some member))
        /\ (getpwnam os member = None ->
            KUser.isValid (KUser.of_name os (Some member)) = false
            /\ member_login os member = EmptyString)).
Proof.
  intros Hsize Hfuel grp.
  assert (Husers : KUserGroup.Private.users (KUserGroup.d grp)
                   = (fun member => KUser.of_name os (Some member)) <$> gr_mem g)
    by apply of_group_users.
  split; [|split].
  - rewrite users_default, Husers, length_fmap. reflexivity.
  - unfold KUserGroup.userNames.
    rewrite userNames_loop_spec.
    + rewrite Z.sub_0_r. change (Z.to_nat 0) with 0%nat.
      rewrite drop_0, app_nil_l.
      rewrite take_ge.
      * rewrite Husers, <- list_fmap_compose. f_equal.
        apply list_fmap_ext. intros ? member _. apply loginName_of_name.
      * rewrite Husers, length_fmap. unfold maxCount_default, UINT_MAX, INT_MAX in *. lia.
    + unfold maxCount_default, UINT_MAX. lia.
    + unfold KUserGroup.size. rewrite Husers, length_fmap. exact Hsize.
    + unfold KUserGroup.size. lia.
    + rewrite Husers, length_fmap. simpl. lia.
  - intros i member Hi. split.
    + rewrite users_default, Husers, list_lookup_fmap, Hi. reflexivity.
    + intros Hnone. rewrite isValid_of_name. unfold member_login. rewrite Hnone.
      split; reflexivity.
Qed.

Lemma group_member_names_witness :
  let grp := KUserGroup.of_group Demo.os (Some Demo.staff) in
  Z.of_nat (length (gr_mem Demo.staff)) <= INT_MAX
  /\ (length (gr_mem Demo.staff) < 4)%nat
  /\ gr_mem Demo.staff = ["alice"; "bob"; "ghost"]
  /\ KUserGroup.userNames 4 grp maxCount_default = Some ["alice"; "bob"; ""]
  /\ length (KUserGroup.users grp maxCount_default) = 3%nat.
Proof.
  intros grp.
  assert (Hsize : Z.of_nat (length (gr_mem Demo.staff)) <= INT_MAX)
    by (vm_compute; discriminate).
  assert (Hfuel : (length (gr_mem Demo.staff) < 4)%nat) by (simpl; lia).
  destruct (group_member_names Demo.os Demo.staff 4 Hsize Hfuel) as (Hlen & Hnames & _).
  split; [exact Hsize|]. split; [exact Hfuel|]. split; [reflexivity|].
  split; [exact Hnames|exact Hlen].
Defined.

(** X9. A group built from no record is invalid, has an empty name and
    no members: the null record and the null name, a name or a gid the
    lookup has no record for, and the group of the process user when the
    lookup of that user's gid has no record.  Its [users(maxCount)] is
    empty for every [maxCount], and it is unequal to every group. *)
Theorem invalid_group_is_blank (os : OS) :
  is_blank_group (KUserGroup.of_group os None) = true
  /\ is_blank_group (KUserGroup.of_name os None) = true
  /\ (forall name, getgrnam os name = None ->
        is_blank_group (KUserGroup.of_name os (Some name)) = true)
  /\ (forall name, getgrnam os (toLocal8Bit os name) = None ->
        is_blank_group (KUserGroup.of_QString os name) = true)
  /\ (forall _gid, getgrgid os _gid = None ->
        is_blank_group (KUserGroup.of_gid os _gid) = true)
  /\ (forall id, getgrgid os (KGroupId.nativeId id) = None ->
        is_blank_group (KUserGroup.of_KGroupId os id) = true)
  /\ (forall mode,
        getgrgid os (KUser.Private.gid (KUser.d (KUser.of_mode os mode))) = None ->
        is_blank_group (KUserGroup.of_mode os mode) = true)
  /\ (forall g maxCount h,
        is_blank_group g = true ->
        KUserGroup.users g maxCount = [] /\ KUserGroup.eqb g h = false
        /\ KUserGroup.eqb h g = false).
Proof.
  split; [reflexivity|]. split; [reflexivity|].
  split.
  { intros name H. unfold KUserGroup.of_name, KUserGroup.Private.of_name.
    rewrite H. reflexivity. }
  split.
  { intros name H. unfold KUserGroup.of_QString, KUserGroup.Private.of_name.
    rewrite H. reflexivity. }
  split.
  { intros _gid H. unfold KUserGroup.of_gid. rewrite H. reflexivity. }
  split.
  { intros id H. unfold KUserGroup.of_KGroupId. rewrite H. reflexivity. }
  split.
  { intros mode H. unfold KUserGroup.of_mode, KUser.groupId. simpl KGroupId.nativeId.
    rewrite H. reflexivity. }
  intros g maxCount h Hblank. unfold is_blank_group in Hblank.
  apply andb_true_iff in Hblank. destruct Hblank as [Hblank Husers].
  apply andb_true_iff in Hblank. destruct Hblank as [Hvalid _].
  apply negb_true_iff in Hvalid.
  destruct (KUserGroup.Private.users (KUserGroup.d g)) as [|? ?] eqn:E; [|discriminate].
  split; [|split].
  - unfold KUserGroup.users, mid. rewrite E.
    destruct (to_int maxCount <? 0); [reflexivity|].
    simpl length. rewrite drop_nil, take_nil.
    destruct (false || (Z.of_nat 0 <? 0 + to_int maxCount)); reflexivity.
  - unfold KUserGroup.eqb. rewrite Hvalid. reflexivity.
  - unfold KUserGroup.eqb, KUserGroup.isValid in *.
    apply negb_false_iff, Z.eqb_eq in Hvalid. rewrite Hvalid.
    destruct (Z.eqb_spec (KUserGroup.Private.gid (KUserGroup.d h)) gid_invalid);
      reflexivity.
Qed.

Lemma invalid_group_is_blank_witness :
  getgrnam Demo.os "This_Group_does_not_exist" = None
  /\ is_blank_group (KUserGroup.of_name Demo.os (Some "This_Group_does_not_exist")) = true
  /\ KUserGroup.users (KUserGroup.of_name Demo.os (Some "This_Group_does_not_exist")) 5 = [].
Proof.
  destruct (invalid_group_is_blank Demo.os) as (_ & _ & Hname & _ & _ & _ & _ & Hblank).
  assert (H : getgrnam Demo.os "This_Group_does_not_exist" = None) by reflexivity.
  split; [exact H|]. split; [exact (Hname _ H)|].
  exact (proj1 (Hblank _ 5 (KUserGroup.of_group Demo.os None) (Hname _ H))).
Defined.

(** ** Membership and the groups of a user *)

Lemma users_contains_of_group (os : OS) (g : group) (u : KUser.t) :
  users_contains (KUserGroup.Private.users (KUserGroup.d (KUserGroup.of_group os (Some g)))) u
  = listed_uid os g (KUser.Private.uid (KUser.d u)).
Proof.
  rewrite of_group_users. unfold users_contains, listed_uid.
  induction (gr_mem g) as [|member mem IH]; [reflexivity|].
  rewrite fmap_cons. cbn [existsb]. rewrite IH. f_equal.
  unfold KUser.eqb, KUser.isValid, KUser.of_name, KUser.Private.of_name.
  destruct (getpwnam os member) as [p|]; [reflexivity|].
  reflexivity.
Qed.

(** X10. The membership test [groups()] applies to a group built from a
    record holds exactly when some listed member name has an account whose
    uid is not the sentinel and equals the user's uid.  It reads the user's
    uid only: its login name and its primary group ([pw_gid]) play no part,
    and no invalid user is a member of any group. *)
Theorem membership_by_uid (os : OS) (g : group) (u : KUser.t)
    (gid' : gid_t) (login' home' shell' : QString) (props' : gmap UserProperty QVariant) :
  let members := KUserGroup.users (KUserGroup.of_group os (Some g)) maxCount_default in
  users_contains members u = listed_uid os g (KUser.Private.uid (KUser.d u))
  /\ users_contains members
       (KUser.mk (KUser.Private.mk (KUser.Private.uid (KUser.d u))
                    gid' login' home' shell' props'))
     = users_contains members u
  /\ (KUser.isValid u = false -> forall users, users_contains users u = false).
Proof.
  intros members. unfold members. rewrite users_default.
  split; [apply users_contains_of_group|]. split.
  - rewrite !users_contains_of_group. reflexivity.
  - intros Hinvalid users. unfold users_contains.
    induction users as [|entry users IH]; [reflexivity|].
    simpl. rewrite IH, orb_false_r.
    destruct (KUser.eqb entry u) eqn:E; [|reflexivity].
    apply KUser_eqb_true in E. destruct E as [Hentry Heq].
    unfold KUser.isValid in Hinvalid. apply negb_false_iff, Z.eqb_eq in Hinvalid.
    congruence.
Qed.

Lemma membership_by_uid_witness :
  let ghost := KUser.of_QString Demo.os "ghost" in
  let alice := KUser.of_QString Demo.os "alice" in
  let wheel := KUserGroup.users (KUserGroup.of_group Demo.os (Some Demo.wheel))
                 maxCount_default in
  KUser.isValid ghost = false
  /\ users_contains wheel ghost = false
  /\ users_contains wheel alice = true.
Proof.
  intros ghost alice wheel.
  assert (H : KUser.isValid ghost = false) by reflexivity.
  destruct (membership_by_uid Demo.os Demo.wheel ghost 0 "" "" "" ∅) as (_ & _ & Hinv).
  destruct (membership_by_uid Demo.os Demo.wheel alice 0 "" "" "" ∅) as (Hin & _).
  split; [exact H|]. split; [exact (Hinv H wheel)|].
  unfold wheel. rewrite Hin. reflexivity.
Defined.

Lemma groups_loop_spec (os : OS) (u : KUser.t) (maxCount : uint) (l : list group) :
  forall result : list KUserGroup.t,
    0 <= maxCount ->
    Z.of_nat (length result + length l) <= UINT_MAX ->
    groups_loop u maxCount ((fun g => KUserGroup.of_group os (Some g)) <$> l) result
    = result ++ ((fun g => KUserGroup.of_group os (Some g)) <$>
                   take (Z.to_nat maxCount - length result)
                        (List.filter
                           (fun g => listed_uid os g (KUser.Private.uid (KUser.d u))) l)).
Proof.
  induction l as [|g l IH]; intros result Hmax Hlen.
  - cbn. rewrite take_nil. cbn. rewrite app_nil_r. reflexivity.
  - rewrite fmap_cons. cbn [groups_loop List.filter].
    rewrite users_default, users_contains_of_group.
    destruct (listed_uid os g (KUser.Private.uid (KUser.d u))).
    + unfold KUserGroup.size. rewrite to_u32_small by (cbn [length] in Hlen; lia).
      rewrite Z.geb_leb.
      destruct (Z.leb_spec maxCount (Z.of_nat (length result))) as [Hfull|Hroom].
      * replace (Z.to_nat maxCount - length result)%nat with 0%nat by lia.
        rewrite take_0. cbn. rewrite app_nil_r. reflexivity.
      * rewrite IH; [|exact Hmax|rewrite length_app; cbn [length] in *; lia].
        rewrite length_app. cbn [length].
        replace (Z.to_nat maxCount - length result)%nat
          with (S (Z.to_nat maxCount - (length result + 1)))%nat by lia.
        cbn [take]. rewrite fmap_cons, <- app_assoc. reflexivity.
    + apply IH; [exact Hmax|cbn [length] in Hlen; lia].
Qed.

Lemma allGroups_default (os : OS) (fuel : nat) (st : DbState) :
  Z.of_nat (length (gr_entries os)) <= INT_MAX ->
  (length (gr_entries os) < fuel)%nat ->
  KUserGroup.allGroups fuel os maxCount_default st
  = Some ((fun g => KUserGroup.of_group os (Some g)) <$> gr_entries os,
          {| pw_cursor := pw_cursor st;
             gr_cursor := None;
             db_calls :=
               db_calls st ++ [Setgrent]
               ++ replicate (S (length (gr_entries os))) Getgrent ++ [Endgrent] |}).
Proof.
  intros Hsize Hfuel.
  assert (Hdefault : 0 <= maxCount_default <= UINT_MAX)
    by (unfold maxCount_default, UINT_MAX; lia).
  rewrite (allGroups_run os maxCount_default Hdefault fuel st Hfuel).
  assert (Hlen : (length (gr_entries os) < Z.to_nat maxCount_default)%nat)
    by (unfold maxCount_default, UINT_MAX, INT_MAX in *; lia).
  rewrite take_ge by lia. unfold fetches.
  destruct (Nat.leb_spec (Z.to_nat maxCount_default) (length (gr_entries os))); [lia|].
  reflexivity.
Qed.

(** X11. With the group database within the capacity of a [QList],
    [groups(maxCount)] scans the whole database once (rewind, one fetch
    per entry and the one answered with null, close) and returns, in
    database order, the first [maxCount] of the groups that list a member
    name whose account has the user's uid; groups past the bound are not
    returned however many match. *)
Theorem groups_of_user (os : OS) (u : KUser.t) (maxCount : uint) (st : DbState)
    (fuel : nat)
    (Hrange : 0 <= maxCount <= UINT_MAX)
    (Hsize : Z.of_nat (length (gr_entries os)) <= INT_MAX)
    (Hfuel : (length (gr_entries os) < fuel)%nat) :
  groups fuel os u maxCount st
  = Some ((fun g => KUserGroup.of_group os (Some g)) <$>
            take (Z.to_nat maxCount)
                 (List.filter (fun g => listed_uid os g (KUser.Private.uid (KUser.d u)))
                              (gr_entries os)),
          {| pw_cursor := pw_cursor st;
             gr_cursor := None;
             db_calls :=
               db_calls st ++ [Setgrent]
               ++ replicate (S (length (gr_entries os))) Getgrent ++ [Endgrent] |}).
Proof.
  unfold groups. rewrite allGroups_default by assumption.
  rewrite groups_loop_spec; [|lia|cbn [length]; unfold UINT_MAX, INT_MAX in *; lia].
  cbn [length app]. rewrite Nat.sub_0_r. reflexivity.
Qed.

Lemma groups_of_user_witness :
  0 <= 1 <= UINT_MAX
  /\ Z.of_nat (length (gr_entries Demo.os)) <= INT_MAX
  /\ (length (gr_entries Demo.os) < 4)%nat
  /\ (fst <$> groups 4 Demo.os (KUser.of_QString Demo.os "alice") maxCount_default
                Demo.closed)
     = Some [KUserGroup.of_group Demo.os (Some Demo.wheel);
             KUserGroup.of_group Demo.os (Some Demo.staff)]
  /\ (fst <$> groups 4 Demo.os (KUser.of_QString Demo.os "alice") 1 Demo.closed)
     = Some [KUserGroup.of_group Demo.os (Some Demo.wheel)]
  /\ (fst <$> groups 4 Demo.os (KUser.of_QString Demo.os "root") 0 Demo.closed)
     = Some [].
Proof.
  assert (H0 : 0 <= 0 <= UINT_MAX) by (unfold UINT_MAX; lia).
  assert (H1 : 0 <= 1 <= UINT_MAX) by (unfold UINT_MAX; lia).
  assert (Hmax : 0 <= maxCount_default <= UINT_MAX)
    by (unfold maxCount_default, UINT_MAX; lia).
  assert (Hsize : Z.of_nat (length (gr_entries Demo.os)) <= INT_MAX)
    by (vm_compute; discriminate).
  assert (Hfuel : (length (gr_entries Demo.os) < 4)%nat) by (simpl; lia).
  split; [exact H1|]. split; [exact Hsize|]. split; [exact Hfuel|].
  split; [|split].
  - rewrite (groups_of_user Demo.os _ maxCount_default Demo.closed 4 Hmax Hsize Hfuel).
    reflexivity.
  - rewrite (groups_of_user Demo.os _ 1 Demo.closed 4 H1 Hsize Hfuel). reflexivity.
  - rewrite (groups_of_user Demo.os _ 0 Demo.closed 4 H0 Hsize Hfuel). reflexivity.
Defined.

Lemma groupNames_loop_names (u : KUser.t) (maxCount : uint) (l : list KUserGroup.t) :
  forall result : list KUserGroup.t,
    groupNames_loop u maxCount l (KUserGroup.name <$> result)
    = KUserGroup.name <$> groups_loop u maxCount l result.
Proof.
  induction l as [|it l IH]; intros result; [reflexivity|].
  cbn [groupNames_loop groups_loop].
  destruct (users_contains (KUserGroup.users it maxCount_default) u); [|apply IH].
  unfold KUserGroup.size. rewrite length_fmap.
  destruct (to_u32 (Z.of_nat (length result)) >=? maxCount); [reflexivity|].
  rewrite <- IH, fmap_app. reflexivity.
Qed.

(** X12. [groupNames(maxCount)] is [groups(maxCount)] with each group
    replaced by its name: the same groups, in the same order, cut at the
    same bound, after the same scan of the database, for every user and
    every [maxCount]. *)
Theorem groupNames_groups (os : OS) (u : KUser.t) (maxCount : uint) (st : DbState)
    (fuel : nat) :
  groupNames fuel os u maxCount st
  = (fun r : list KUserGroup.t * DbState => (KUserGroup.name <$> r.1, r.2))
      <$> groups fuel os u maxCount st
  /\ (0 <= maxCount <= UINT_MAX ->
      Z.of_nat (length (gr_entries os)) <= INT_MAX ->
      (length (gr_entries os) < fuel)%nat ->
      groupNames fuel os u maxCount st
      = Some ((fun g => fromLocal8Bit os (gr_name g)) <$>
                take (Z.to_nat maxCount)
                     (List.filter
                        (fun g => listed_uid os g (KUser.Private.uid (KUser.d u)))
                        (gr_entries os)),
              {| pw_cursor := pw_cursor st;
                 gr_cursor := None;
                 db_calls :=
                   db_calls st ++ [Setgrent]
                   ++ replicate (S (length (gr_entries os))) Getgrent ++ [Endgrent] |})).
Proof.
  split.
  - unfold groupNames, groups.
    destruct (KUserGroup.allGroups fuel os maxCount_default st) as [[all st']|];
      [|reflexivity].
    cbn. rewrite <- groupNames_loop_names. reflexivity.
  - intros Hrange Hsize Hfuel.
    unfold groupNames. rewrite allGroups_default by assumption.
    change (@nil string) with (KUserGroup.name <$> (@nil KUserGroup.t)).
    rewrite groupNames_loop_names.
    rewrite groups_loop_spec; [|lia|cbn [length]; unfold UINT_MAX, INT_MAX in *; lia].
    cbn [length app]. rewrite Nat.sub_0_r, <- list_fmap_compose. reflexivity.
Qed.

Lemma groupNames_groups_witness :
  0 <= 1 <= UINT_MAX
  /\ Z.of_nat (length (gr_entries Demo.os)) <= INT_MAX
  /\ (length (gr_entries Demo.os) < 4)%nat
  /\ (fst <$> groupNames 4 Demo.os (KUser.of_QString Demo.os "bob") 1 Demo.closed)
     = Some ["users"].
Proof.
  assert (H1 : 0 <= 1 <= UINT_MAX) by (unfold UINT_MAX; lia).
  assert (Hsize : Z.of_nat (length (gr_entries Demo.os)) <= INT_MAX)
    by (vm_compute; discriminate).
  assert (Hfuel : (length (gr_entries Demo.os) < 4)%nat) by (simpl; lia).
  split; [exact H1|]. split; [exact Hsize|]. split; [exact Hfuel|].
  rewrite (proj2 (groupNames_groups Demo.os (KUser.of_QString Demo.os "bob") 1
                    Demo.closed 4) H1 Hsize Hfuel).
  reflexivity.
Defined.

Lemma groups_loop_invalid (u : KUser.t) (maxCount : uint) (l : list KUserGroup.t) :
  KUser.isValid u = false ->
  forall result, groups_loop u maxCount l result = result.
Proof.
  intros Hinvalid. induction l as [|it l IH]; intros result; [reflexivity|].
  cbn [groups_loop].
  assert (Hout : users_contains (KUserGroup.users it maxCount_default) u = false).
  { unfold users_contains.
    induction (KUserGroup.users it maxCount_default) as [|entry users IHu]; [reflexivity|].
    cbn [existsb]. rewrite IHu, orb_false_r.
    destruct (KUser.eqb entry u) eqn:E; [|reflexivity].
    apply KUser_eqb_true in E. destruct E as [Hentry Heq].
    unfold KUser.isValid in Hinvalid. apply negb_false_iff, Z.eqb_eq in Hinvalid.
    congruence. }
  rewrite Hout. apply IH.
Qed.

(** X13. An invalid user is in no group: for a user whose uid is the
    sentinel, [groups(maxCount)] and [groupNames(maxCount)] return the
    empty list for every [maxCount], after scanning the whole database. *)
Theorem invalid_user_has_no_groups (os : OS) (u : KUser.t) (maxCount : uint)
    (st : DbState) (fuel : nat)
    (Hinvalid : KUser.isValid u = false)
    (Hsize : Z.of_nat (length (gr_entries os)) <= INT_MAX)
    (Hfuel : (length (gr_entries os) < fuel)%nat) :
  (fst <$> groups fuel os u maxCount st) = Some []
  /\ (fst <$> groupNames fuel os u maxCount st) = Some []
  /\ (db_calls <$> (snd <$> groups fuel os u maxCount st))
     = Some (db_calls st ++ [Setgrent]
             ++ replicate (S (length (gr_entries os))) Getgrent ++ [Endgrent]).
Proof.
  assert (Hgroups : groups fuel os u maxCount st
                    = Some ([], {| pw_cursor := pw_cursor st;
                                   gr_cursor := None;
                                   db_calls :=
                                     db_calls st ++ [Setgrent]
                                     ++ replicate (S (length (gr_entries os))) Getgrent
                                     ++ [Endgrent] |})).
  { unfold groups. rewrite allGroups_default by assumption.
    rewrite groups_loop_invalid by exact Hinvalid. reflexivity. }
  assert (Hnames : groupNames fuel os u maxCount st
                   = Some ([], {| pw_cursor := pw_cursor st;
                                  gr_cursor := None;
                                  db_calls :=
                                    db_calls st ++ [Setgrent]
                                    ++ replicate (S (length (gr_entries os))) Getgrent
                                    ++ [Endgrent] |})).
  { unfold groupNames. rewrite allGroups_default by assumption.
    change (@nil string) with (KUserGroup.name <$> (@nil KUserGroup.t)).
    rewrite groupNames_loop_names, groups_loop_invalid by exact Hinvalid. reflexivity. }
  rewrite Hgroups, Hnames. repeat split.
Qed.

Lemma invalid_user_has_no_groups_witness :
  let ghost := KUser.of_QString Demo.os "ghost" in
  KUser.isValid ghost = false
  /\ (fst <$> groups 4 Demo.os ghost maxCount_default Demo.closed) = Some []
  /\ (fst <$> groupNames 4 Demo.os ghost maxCount_default Demo.closed) = Some [].
Proof.
  intros ghost.
  assert (Hinvalid : KUser.isValid ghost = false) by reflexivity.
  assert (Hsize : Z.of_nat (length (gr_entries Demo.os)) <= INT_MAX)
    by (vm_compute; discriminate).
  assert (Hfuel : (length (gr_entries Demo.os) < 4)%nat) by (simpl; lia).
  destruct (invalid_user_has_no_groups Demo.os ghost maxCount_default Demo.closed 4
              Hinvalid Hsize Hfuel) as (Hg & Hn & _).
  split; [exact Hinvalid|]. split; [exact Hg|exact Hn].
Defined.

(** ** Names from the scans *)

Lemma allUserNames_loop_names (os : OS) (maxCount : uint) (fuel : nat) :
  forall (i : uint) (st : DbState) (result : list KUser.t),
    allUserNames_loop fuel os maxCount i st (KUser.loginName <$> result)
    = (fun r : list KUser.t * DbState => (KUser.loginName <$> r.1, r.2))
        <$> allUsers_loop fuel os maxCount i st result.
Proof.
  induction fuel as [|fuel IH]; intros i st result; [reflexivity|].
  cbn [allUserNames_loop allUsers_loop].
  destruct (i <? maxCount); [|reflexivity].
  destruct (getpwent os st) as [[p|] st']; [|reflexivity].
  rewrite <- IH, fmap_app. reflexivity.
Qed.

Lemma allGroupNames_loop_names (os : OS) (maxCount : uint) (fuel : nat) :
  forall (i : uint) (st : DbState) (result : list KUserGroup.t),
    allGroupNames_loop fuel os maxCount i st (KUserGroup.name <$> result)
    = (fun r : list KUserGroup.t * DbState => (KUserGroup.name <$> r.1, r.2))
        <$> KUserGroup.allGroups_loop fuel os maxCount i st result.
Proof.
  induction fuel as [|fuel IH]; intros i st result; [reflexivity|].
  cbn [allGroupNames_loop KUserGroup.allGroups_loop].
  destruct (i <? maxCount); [|reflexivity].
  destruct (getgrent os st) as [[g|] st']; [|reflexivity].
  rewrite <- IH, fmap_app. reflexivity.
Qed.

(** X14. [allUserNames(maxCount)] is [allUsers(maxCount)] with each user
    replaced by its login name and leaves the cursors in the same state;
    for a [maxCount] in the range of [uint] it ends and returns the decoded
    [pw_name] of the first [min(maxCount, N)] entries in database order. *)
Theorem allUserNames_allUsers (os : OS) (maxCount : uint) (st : DbState) (fuel : nat) :
  allUserNames fuel os maxCount st
  = (fun r : list KUser.t * DbState => (KUser.loginName <$> r.1, r.2))
      <$> allUsers fuel os maxCount st
  /\ (0 <= maxCount <= UINT_MAX ->
      (length (pw_entries os) < fuel)%nat ->
      allUserNames fuel os maxCount st
      = Some ((fun p => fromLocal8Bit os (pw_name p))
                <$> take (Z.to_nat maxCount) (pw_entries os),
              {| pw_cursor := None;
                 gr_cursor := gr_cursor st;
                 db_calls :=
                   db_calls st ++ [Setpwent]
                   ++ replicate (fetches (Z.to_nat maxCount) (length (pw_entries os)))
                                Getpwent
                   ++ [Endpwent] |})).
Proof.
  assert (Hagree : allUserNames fuel os maxCount st
                   = (fun r : list KUser.t * DbState => (KUser.loginName <$> r.1, r.2))
                       <$> allUsers fuel os maxCount st).
  { unfold allUserNames, allUsers.
    change (@nil string) with (KUser.loginName <$> (@nil KUser.t)).
    rewrite allUserNames_loop_names.
    destruct (allUsers_loop fuel os maxCount 0 (setpwent st) []) as [[us st']|];
      reflexivity. }
  split; [exact Hagree|].
  intros Hrange Hfuel.
  rewrite Hagree, (allUsers_run os maxCount Hrange fuel st Hfuel).
  cbn [fmap option_fmap option_map fst snd]. rewrite <- list_fmap_compose. reflexivity.
Qed.

Lemma allUserNames_allUsers_witness :
  0 <= 2 <= UINT_MAX
  /\ (length (pw_entries Demo.os) < 4)%nat
  /\ (fst <$> allUserNames 4 Demo.os 2 Demo.closed) = Some ["root"; "alice"]
  /\ (fst <$> allUserNames 4 Demo.os maxCount_default Demo.closed)
     = Some ["root"; "alice"; "bob"].
Proof.
  assert (H2 : 0 <= 2 <= UINT_MAX) by (unfold UINT_MAX; lia).
  assert (Hmax : 0 <= maxCount_default <= UINT_MAX)
    by (unfold maxCount_default, UINT_MAX; lia).
  assert (Hfuel : (length (pw_entries Demo.os) < 4)%nat) by (simpl; lia).
  split; [exact H2|]. split; [exact Hfuel|]. split.
  - rewrite (proj2 (allUserNames_allUsers Demo.os 2 Demo.closed 4) H2 Hfuel).
    reflexivity.
  - rewrite (proj2 (allUserNames_allUsers Demo.os maxCount_default Demo.closed 4)
               Hmax Hfuel).
    reflexivity.
Defined.

(** X15. [allGroupNames(maxCount)] is [allGroups(maxCount)] with each
    group replaced by its name and leaves the cursors in the same state;
    for a [maxCount] in the range of [uint] it ends and returns the decoded
    [gr_name] of the first [min(maxCount, N)] entries in database order. *)
Theorem allGroupNames_allGroups (os : OS) (maxCount : uint) (st : DbState) (fuel : nat) :
  allGroupNames fuel os maxCount st
  = (fun r : list KUserGroup.t * DbState => (KUserGroup.name <$> r.1, r.2))
      <$> KUserGroup.allGroups fuel os maxCount st
  /\ (0 <= maxCount <= UINT_MAX ->
      (length (gr_entries os) < fuel)%nat ->
      allGroupNames fuel os maxCount st
      = Some ((fun g => fromLocal8Bit os (gr_name g))
                <$> take (Z.to_nat maxCount) (gr_entries os),
              {| pw_cursor := pw_cursor st;
                 gr_cursor := None;
                 db_calls :=
                   db_calls st ++ [Setgrent]
                   ++ replicate (fetches (Z.to_nat maxCount) (length (gr_entries os)))
                                Getgrent
                   ++ [Endgrent] |})).
Proof.
  assert (Hagree : allGroupNames fuel os maxCount st
                   = (fun r : list KUserGroup.t * DbState =>
                        (KUserGroup.name <$> r.1, r.2))
                       <$> KUserGroup.allGroups fuel os maxCount st).
  { unfold allGroupNames, KUserGroup.allGroups.
    change (@nil string) with (KUserGroup.name <$> (@nil KUserGroup.t)).
    rewrite allGroupNames_loop_names.
    destruct (KUserGroup.allGroups_loop fuel os maxCount 0 (setgrent st) [])
      as [[gs st']|]; reflexivity. }
  split; [exact Hagree|].
  intros Hrange Hfuel.
  rewrite Hagree, (allGroups_run os maxCount Hrange fuel st Hfuel).
  cbn [fmap option_fmap option_map fst snd]. rewrite <- list_fmap_compose. reflexivity.
Qed.

Lemma allGroupNames_allGroups_witness :
  0 <= 2 <= UINT_MAX
  /\ (length (gr_entries Demo.os) < 4)%nat
  /\ (fst <$> allGroupNames 4 Demo.os 2 Demo.closed) = Some ["wheel"; "users"].
Proof.
  assert (H2 : 0 <= 2 <= UINT_MAX) by (unfold UINT_MAX; lia).
  assert (Hfuel : (length (gr_entries Demo.os) < 4)%nat) by (simpl; lia).
  split; [exact H2|]. split; [exact Hfuel|].
  rewrite (proj2 (allGroupNames_allGroups Demo.os 2 Demo.closed 4) H2 Hfuel).
  reflexivity.
Defined.

(** ** Bounds of users(), the process user's home, the face icon *)

(** X16. [users(0)] is empty, and for a member list within the capacity
    of a [QList] a larger bound only extends the result: for
    [m1 <= m2], [users(m1)] is a prefix of [users(m2)], also when [m2]
    exceeds [INT_MAX] and is taken as unbounded. *)
Theorem users_monotone (g : KUserGroup.t) (m1 m2 : uint) :
  KUserGroup.users g 0 = []
  /\ (0 <= m1 <= m2 -> m2 <= UINT_MAX ->
      KUserGroup.size (KUserGroup.Private.users (KUserGroup.d g)) <= INT_MAX ->
      KUserGroup.users g m1 `prefix_of` KUserGroup.users g m2).
Proof.
  split.
  - unfold KUserGroup.users. change (to_int 0) with 0.
    rewrite mid_0_take by lia. reflexivity.
  - intros H1 H2 Hsize.
    rewrite !users_take by (assumption || lia).
    replace (take (Z.to_nat m1) (KUserGroup.Private.users (KUserGroup.d g)))
      with (take (Z.to_nat m1)
              (take (Z.to_nat m2) (KUserGroup.Private.users (KUserGroup.d g)))).
    + apply prefix_take.
    + rewrite take_take. f_equal. lia.
Qed.

Lemma users_monotone_witness :
  let g := KUserGroup.of_group Demo.os (Some Demo.staff) in
  KUserGroup.users g 1 `prefix_of` KUserGroup.users g 2
  /\ KUserGroup.users g 2 `prefix_of` KUserGroup.users g 3000000000.
Proof.
  intros g.
  assert (Hsize : KUserGroup.size (KUserGroup.Private.users (KUserGroup.d g)) <= INT_MAX)
    by (vm_compute; discriminate).
  split.
  - apply (proj2 (users_monotone g 1 2)); [lia|unfold UINT_MAX; lia|exact Hsize].
  - apply (proj2 (users_monotone g 2 3000000000));
      [lia|unfold UINT_MAX; lia|exact Hsize].
Defined.

Lemma fillPasswd_own_home (os : OS) (r : option passwd) :
  let d := KUser.Private.fillPasswd os KUser.Private.init r in
  KUser.Private.uid d <> uid_invalid ->
  KUser.Private.uid d = getuid os ->
  geteuid os = getuid os ->
  isEmpty (decodeName os (qgetenv os "HOME")) = false ->
  KUser.Private.homeDir d = decodeName os (qgetenv os "HOME").
Proof.
  destruct r as [p|]; simpl; intros Hvalid Hreal Heff Hhome; [|contradiction].
  rewrite Heff, (proj2 (Z.eqb_eq _ _) Hreal). simpl. rewrite Hhome. reflexivity.
Qed.

(** X17. In a process whose effective uid is its real uid, when the
    constructor from a mode yields a valid user with the real uid and
    [HOME] has a non-empty value, the home directory of that user is the
    decoded [HOME], whatever [pw_dir] the account record has. *)
Theorem own_home_from_environment (os : OS) (mode : UIDMode) :
  geteuid os = getuid os ->
  KUser.isValid (KUser.of_mode os mode) = true ->
  KUser.Private.uid (KUser.d (KUser.of_mode os mode)) = getuid os ->
  isEmpty (decodeName os (qgetenv os "HOME")) = false ->
  KUser.homeDir (KUser.of_mode os mode) = decodeName os (qgetenv os "HOME").
Proof.
  intros Heff Hvalid Hreal Hhome.
  unfold KUser.isValid in Hvalid. apply negb_true_iff, Z.eqb_neq in Hvalid.
  unfold KUser.homeDir. revert Hvalid Hreal. unfold KUser.of_mode.
  rewrite (proj2 (Z.eqb_eq _ _) Heff), andb_false_r.
  unfold KUser.Private.of_name, KUser.Private.of_passwd.
  destruct (negb _); [destruct (negb _)|]; cbn [KUser.d]; intros Hvalid Hreal;
    apply fillPasswd_own_home; assumption.
Qed.

Lemma own_home_from_environment_witness :
  geteuid Demo.os = getuid Demo.os
  /\ KUser.isValid (KUser.of_mode Demo.os UseEffectiveUID) = true
  /\ KUser.homeDir (KUser.of_mode Demo.os UseEffectiveUID) = "/tmp/alice"
  /\ pw_dir Demo.alice = "/home/alice".
Proof.
  assert (H1 : geteuid Demo.os = getuid Demo.os) by reflexivity.
  assert (H2 : KUser.isValid (KUser.of_mode Demo.os UseEffectiveUID) = true)
    by reflexivity.
  split; [exact H1|]. split; [exact H2|].
  split; [|reflexivity].
  apply (own_home_from_environment Demo.os UseEffectiveUID H1 H2); reflexivity.
Defined.

Lemma append_not_empty (s t : QString) (c : Ascii.ascii) :
  isEmpty (s +:+ String c t) = false.
Proof. destruct s; reflexivity. Qed.

(** X18. [faceIconPath()] never returns a path that is not on disk: the
    result is empty exactly when [homeDir()/.face.icon] does not exist, and
    is that existing path otherwise.  For a user built from no record the
    home directory is empty, so the file looked for is [/.face.icon] in the
    root directory. *)
Theorem faceIconPath_exists (os : OS) (file_exists : QString -> bool) (u : KUser.t) :
  isEmpty (faceIconPath file_exists u)
  = negb (file_exists (KUser.homeDir u +:+ "/.face.icon"))
  /\ (isEmpty (faceIconPath file_exists u) = false ->
      file_exists (faceIconPath file_exists u) = true
      /\ faceIconPath file_exists u = KUser.homeDir u +:+ "/.face.icon")
  /\ faceIconPath file_exists (KUser.of_passwd os None)
     = (if file_exists "/.face.icon" then "/.face.icon" else "").
Proof.
  unfold faceIconPath.
  change (String "/"%char ".face.icon") with "/.face.icon".
  split; [|split; [|reflexivity]].
  - destruct (file_exists (KUser.homeDir u +:+ "/.face.icon")) eqn:E; [|reflexivity].
    apply append_not_empty.
  - destruct (file_exists (KUser.homeDir u +:+ "/.face.icon")) eqn:E.
    + intros _. split; [exact E|reflexivity].
    + intros H. discriminate H.
Qed.

Lemma faceIconPath_exists_witness :
  let on_disk := fun path => String.eqb path "/tmp/alice/.face.icon" in
  let alice := KUser.of_QString Demo.os "alice" in
  isEmpty (faceIconPath on_disk alice) = false
  /\ faceIconPath on_disk alice = "/tmp/alice/.face.icon"
  /\ faceIconPath on_disk (KUser.of_QString Demo.os "bob") = "".
Proof.
  intros on_disk alice.
  assert (H : isEmpty (faceIconPath on_disk alice) = false) by reflexivity.
  destruct (faceIconPath_exists Demo.os on_disk alice) as (_ & Hpath & _).
  split; [exact H|]. split; [exact (proj2 (Hpath H))|reflexivity].
Defined.
